(** * VirtuWear: outfit resolution and try-on request pipeline

    A shallow embedding of [app.py]: the asset resolver
    ([allowed_file], [find_outfit_path]), the request builder and the
    response extractor of [run_gemini_tryon], the result materializer, and
    the request handler [api_tryon]; of the catalog generator
    [make_products.py]; and of [print_tree] of [diagnose_imports.py].

    Modelling conventions.
    - Python [str] is [string]; [bytes] is [list Byte.byte].
    - The host is a POSIX one with pathlib of Python 3.11: the separator is
      ["/"], names are compared case-sensitively, an entry name has at most
      [NAME_MAX] characters.  Characters are those of [ascii].
    - The catalog directory [IMG_DIR] exists and is known by its listing: a
      list of entries, each a regular file or a folder, in directory-listing
      order.  An identifier is joined to [IMG_DIR] as pathlib does; where
      the joined path, or a pattern, leaves what the listing describes (an
      absolute text, [".."], several components, a name the file system
      refuses), the answer is that of the section variables
      [exists_beyond], [glob_beyond], [subfolders] and [read_beyond].
    - In a response of the model, the [parts] of a content are [None] or a
      list, as the client library declares them.
    - [ALLOWED_EXTS] is a Python set: membership does not depend on an order,
      iteration follows some order of its four elements.  That order is the
      section variable [ext_order].
    - Pillow and the remote model are collaborators outside the repository;
      they are section variables.
    - Exceptions are values of [exn]; the pipeline runs in a state and error
      monad over the file store. *)

From Stdlib Require Import Strings.Ascii Strings.String Strings.Byte.
From stdpp Require Import base option list strings gmap sorting.
From Stdlib Require Import QArith DecimalString DecimalNat.

Close Scope Q_scope.

Local Open Scope string_scope.
Local Open Scope list_scope.

(** ** Text helpers *)

Module Text.

(** [c.lower()] on the ASCII range. *)
Definition lower_ascii (c : ascii) : ascii :=
  let n := nat_of_ascii c in
  if (65 <=? n)%nat && (n <=? 90)%nat then ascii_of_nat (n + 32) else c.

Definition chars (s : string) : list ascii := list_ascii_of_string s.
Definition text (l : list ascii) : string := string_of_list_ascii l.

(** [s.lower()] *)
Definition lower (s : string) : string := text (map lower_ascii (chars s)).

Definition ascii_eqb (a b : ascii) : bool := Ascii.eqb a b.

(** [l] is an initial segment of [s]. *)
Fixpoint is_prefix (l s : list ascii) : bool :=
  match l, s with
  | [], _ => true
  | _ :: _, [] => false
  | a :: l', b :: s' => ascii_eqb a b && is_prefix l' s'
  end.

(** [sub in s] on character lists. *)
Fixpoint contains (sub s : list ascii) : bool :=
  is_prefix sub s ||
  match s with
  | [] => false
  | _ :: s' => contains sub s'
  end.

(** Python's [sub in s]. *)
Definition str_in (sub s : string) : bool := contains (chars sub) (chars s).

(** Truth value of a [str]: non-empty. *)
Definition truthy (s : string) : bool :=
  match s with EmptyString => false | String _ _ => true end.

Definition string_eqb (a b : string) : bool := String.eqb a b.

Definition mem (s : string) (l : list string) : bool := existsb (string_eqb s) l.

End Text.

(** ** Paths *)

Module PurePath.
Import Text.

(** Split at ["/"]; the pieces come out in order, the current piece is
    accumulated in reverse. *)
Fixpoint split_slash (acc : list ascii) (l : list ascii) : list (list ascii) :=
  match l with
  | [] => [rev acc]
  | c :: l' =>
      if ascii_eqb c "/" then rev acc :: split_slash [] l'
      else split_slash (c :: acc) l'
  end.

(** A path keeps the components that are neither empty nor ["."]. *)
Definition keeps (comp : list ascii) : bool :=
  match comp with
  | [] => false
  | [c] => negb (ascii_eqb c ".")
  | _ => true
  end.

Definition parts (s : string) : list (list ascii) :=
  filter (fun comp => keeps comp = true) (split_slash [] (chars s)).

(** [Path(s).name]: the final component, [""] when there is none. *)
Definition name (s : string) : string :=
  text (List.last (parts s) []).

(** [name.rfind('.')]: index of the last dot. *)
Fixpoint rfind_dot (i : nat) (l : list ascii) : option nat :=
  match l with
  | [] => None
  | c :: l' =>
      match rfind_dot (S i) l' with
      | Some j => Some j
      | None => if ascii_eqb c "." then Some i else None
      end
  end.

(** [Path(s).suffix]:
    [i = name.rfind('.'); name[i:] if 0 < i < len(name) - 1 else ''] *)
Definition suffix (s : string) : string :=
  let n := chars (name s) in
  match rfind_dot 0 n with
  | Some i =>
      if (0 <? i)%nat && (i <? length n - 1)%nat then text (drop i n) else ""
  | None => ""
  end.

End PurePath.

(** A component: a run of characters without a separator. *)
Definition no_slash (l : list ascii) : Prop := Forall (fun c => c <> "/"%char) l.

(** ** Allowed extensions *)

(** [ALLOWED_EXTS = {".jpg", ".jpeg", ".png", ".webp"}], as written. *)
Definition ALLOWED_EXTS : list string := [".jpg"; ".jpeg"; ".png"; ".webp"].

(** [ext in ALLOWED_EXTS] *)
Definition in_allowed_exts (ext : string) : bool := Text.mem ext ALLOWED_EXTS.

(** [allowed_file(filename)]:
    [Path(filename).suffix.lower() in ALLOWED_EXTS] *)
Definition allowed_file (filename : string) : bool :=
  in_allowed_exts (Text.lower (PurePath.suffix filename)).

(** ** Shell-style patterns

    [Path.glob] matches one path component with [fnmatch]: [*] is any run of
    characters, [?] one character, [[seq]] one character of [seq] (with
    ranges [lo-hi]), [[!seq]] one character not in [seq]; an unclosed [[]
    stands for itself.  Names starting with a dot are matched like any
    other.  Bracket expressions are read as [fnmatch.translate] of
    Python 3.11 writes them for [re]. *)

Module Fnmatch.
Import Text.

Inductive set_item :=
| SChar (c : ascii)
| SRange (lo hi : ascii).

Inductive item :=
| Star
| AnyChar
| Lit (c : ascii)
| CharSet (negated : bool) (members : list set_item).

(** The text up to the next ["]"], and what follows it. *)
Fixpoint until_rbracket (l : list ascii) : option (list ascii * list ascii) :=
  match l with
  | [] => None
  | c :: l' =>
      if ascii_eqb c "]" then Some ([], l')
      else match until_rbracket l' with
           | Some (stuff, rest) => Some (c :: stuff, rest)
           | None => None
           end
  end.

Definition prepend (pre : list ascii) (r : option (list ascii * list ascii)) :=
  match r with
  | Some (stuff, rest) => Some (pre ++ stuff, rest)
  | None => None
  end.

(** The body of a bracket expression, given the text after ["["]: a leading
    ["!"] and then a leading ["]"] belong to the body. *)
Definition split_class (l : list ascii) : option (list ascii * list ascii) :=
  match l with
  | "!"%char :: "]"%char :: l' => prepend ["!"%char; "]"%char] (until_rbracket l')
  | "!"%char :: l' => prepend ["!"%char] (until_rbracket l')
  | "]"%char :: l' => prepend ["]"%char] (until_rbracket l')
  | _ => until_rbracket l
  end.

Definition ascii_leb (a b : ascii) : bool := (nat_of_ascii a <=? nat_of_ascii b)%nat.

(** The body is cut at the hyphens that make ranges.  [wait] counts the
    characters that cannot be such a hyphen: the first of the body (the
    first two when it starts with ["!"]), and the two after a range hyphen
    ([k = k + 3] in [fnmatch.translate]). *)
Fixpoint chunks_go (wait : nat) (acc : list ascii) (l : list ascii)
  : list (list ascii) :=
  match l with
  | [] => [rev acc]
  | c :: l' =>
      match wait with
      | S w => chunks_go w (c :: acc) l'
      | O =>
          if ascii_eqb c "-" then rev acc :: chunks_go 2 [] l'
          else chunks_go 0 (c :: acc) l'
      end
  end.

(** [if chunk: chunks.append(chunk) else: chunks[-1] += '-'] *)
Fixpoint close_last (cs : list (list ascii)) : list (list ascii) :=
  match cs with
  | [] => []
  | c :: cs' =>
      match cs' with
      | [ [] ] => [c ++ ["-"%char]]
      | _ => c :: close_last cs'
      end
  end.

(** One step of "Remove empty ranges": when the last character of [c] is
    greater than the first of the chunk after it, both are dropped and the
    two chunks become one. *)
Definition drop_empty_range (c : list ascii) (t : list (list ascii))
  : list (list ascii) :=
  match t with
  | (hi :: tl) :: t' =>
      match List.last (map Some c) None with
      | Some lo =>
          if ascii_leb lo hi then c :: t else (removelast c ++ tl) :: t'
      | None => c :: t
      end
  | _ => c :: t
  end.

Definition chunks (stuff : list ascii) : list (list ascii) :=
  let wait := match stuff with "!"%char :: _ => 2 | _ => 1 end in
  foldr drop_empty_range [] (close_last (chunks_go wait [] stuff)).

(** The members of the character class written from the chunks: every
    character of a chunk, and the range from the last character of a chunk
    to the first of the next. *)
Fixpoint members (cs : list (list ascii)) : list set_item :=
  match cs with
  | [] => []
  | c :: cs' =>
      map SChar c ++
      match List.last (map Some c) None, cs' with
      | Some lo, (hi :: _) :: _ => [SRange lo hi]
      | _, _ => []
      end ++ members cs'
  end.

(** The class is negated when the text left after removing empty ranges
    starts with ["!"].  When that ["!"] is a chunk of its own, the hyphen
    after it comes first in the class and stands for itself. *)
Definition class_of (stuff : list ascii) : item :=
  match chunks stuff with
  | ("!"%char :: r0) :: rest =>
      match r0, rest with
      | [], _ :: _ => CharSet true (SChar "-"%char :: members rest)
      | _, _ => CharSet true (members (r0 :: rest))
      end
  | cs => CharSet false (members cs)
  end.

(** [fnmatch.translate]: [skip] counts the characters of a bracket
    expression still to be passed over. *)
Fixpoint translate (skip : nat) (pat : list ascii) : list item :=
  match pat with
  | [] => []
  | c :: pat' =>
      match skip with
      | S k => translate k pat'
      | O =>
          if ascii_eqb c "*" then Star :: translate 0 pat'
          else if ascii_eqb c "?" then AnyChar :: translate 0 pat'
          else if ascii_eqb c "[" then
            match split_class pat' with
            | Some (stuff, _) => class_of stuff :: translate (S (length stuff)) pat'
            | None => Lit c :: translate 0 pat'
            end
          else Lit c :: translate 0 pat'
      end
  end.

Definition in_set_item (c : ascii) (m : set_item) : bool :=
  match m with
  | SChar d => ascii_eqb c d
  | SRange lo hi => ascii_leb lo c && ascii_leb c hi
  end.

Definition matches_one (it : item) (c : ascii) : bool :=
  match it with
  | Star => true
  | AnyChar => true
  | Lit d => ascii_eqb d c
  | CharSet neg ms => xorb neg (existsb (in_set_item c) ms)
  end.

(** The whole of [s] matches the items. *)
Fixpoint full_match (p : list item) (s : list ascii) : bool :=
  match p with
  | [] => match s with [] => true | _ :: _ => false end
  | Star :: p' =>
      (fix star (s : list ascii) : bool :=
         full_match p' s ||
         match s with
         | [] => false
         | _ :: s' => star s'
         end) s
  | it :: p' =>
      match s with
      | [] => false
      | c :: s' => matches_one it c && full_match p' s'
      end
  end.

(** [fnmatch.fnmatchcase(name, pat)] *)
Definition fnmatch (name pat : string) : bool :=
  full_match (translate 0 (chars pat)) (chars name).

(** A character with a meaning of its own in a pattern. *)
Definition is_magic (c : ascii) : bool :=
  ascii_eqb c "*" || ascii_eqb c "?" || ascii_eqb c "[".

Definition has_magic (s : string) : bool := existsb is_magic (chars s).

End Fnmatch.

(** ** Files and folders *)

Definition bytes := list Byte.byte.

(** The three folders under [BASE_DIR] the program touches. *)
Inductive dir := IMG_DIR | UPLOADS_DIR | OUTPUT_DIR.

(** [folder / name] *)
Record path := Path { p_dir : dir; p_name : string }.

Notation "d // n" := (Path d n) (at level 40, left associativity).

Inductive node :=
| File (content : bytes)
| Directory.

Record entry := Entry { e_name : string; e_node : node }.

(** The file store: the catalog in directory-listing order (the program
    only reads it), and the files of the two folders it writes to. *)
Record fs := FS {
  img_dir : list entry;
  uploads : gmap string bytes;
  output : gmap string bytes
}.

(** The longest name a folder entry can have (ext4, xfs, btrfs, tmpfs). *)
Definition NAME_MAX : nat := 255.

(** A name of a folder entry is one path component: it has no separator and
    no NUL, is none of [""], ["."], [".."], and is not longer than
    [NAME_MAX].  An element of a listing whose name is not of that form
    stands for nothing in the folder. *)
Definition valid_name (n : string) : bool :=
  negb (existsb (fun c => Text.ascii_eqb c "/" || Text.ascii_eqb c "000") (Text.chars n)) &&
  negb (Text.string_eqb n "") && negb (Text.string_eqb n ".") &&
  negb (Text.string_eqb n "..") && (String.length n <=? NAME_MAX)%nat.

Definition lookup_entry (cat : list entry) (n : string) : option entry :=
  List.find (fun e => Text.string_eqb (e_name e) n && valid_name n) cat.

(** [p.is_file()] and [p.is_dir()] for an entry of the listing. *)
Definition is_file (e : entry) : bool :=
  valid_name (e_name e) &&
  match e_node e with File _ => true | Directory => false end.

Definition is_dir (e : entry) : bool :=
  valid_name (e_name e) &&
  match e_node e with File _ => false | Directory => true end.

(** A text starting with the separator is an absolute path; joined to a
    folder it replaces the folder. *)
Definition is_absolute (n : string) : bool :=
  match n with
  | String c _ => Text.ascii_eqb c "/"
  | EmptyString => false
  end.

(** Where [IMG_DIR / n] points: to the folder itself when [n] has no
    component, to an entry of the folder when it has one that can name an
    entry (pathlib drops empty components and ["."]), and beyond the
    listing otherwise (an absolute text, [".."], an overlong component,
    several components). *)
Inductive place :=
| Self
| Child (c : string)
| Beyond.

Definition locate (n : string) : place :=
  if is_absolute n then Beyond
  else match map Text.text (PurePath.parts n) with
       | [] => Self
       | [c] => if valid_name c then Child c else Beyond
       | _ => Beyond
       end.

(** The last character of the text is the separator. *)
Definition ends_with_sep (n : string) : bool :=
  match List.last (map Some (Text.chars n)) None with
  | Some c => Text.ascii_eqb c "/"
  | None => false
  end.

(** What [glob] yields: the path below [IMG_DIR] and whether it is a
    regular file. *)
Record hit := { h_name : string; h_is_file : bool }.

Definition hit_of (e : entry) : hit :=
  {| h_name := e_name e; h_is_file := is_file e |}.

(** ** Exceptions *)

Inductive exn :=
| FileNotFoundError (msg : string)
| RuntimeError (msg : string)
| UnidentifiedImageError (msg : string)
| IsADirectoryError (msg : string)
| UpstreamError (msg : string)
| TypeError (msg : string)
| ValueError (msg : string)
| NotImplementedError (msg : string)
| OSError (msg : string).

(** [str(e)] *)
Definition str (e : exn) : string :=
  match e with
  | FileNotFoundError m | RuntimeError m | UnidentifiedImageError m
  | IsADirectoryError m | UpstreamError m | TypeError m | ValueError m
  | NotImplementedError m | OSError m => m
  end.

(** ** The model's request and response objects *)

Record Blob := { mime_type : option string; data : option bytes }.
Record Part := { text : option string; inline_data : option Blob }.
(** [parts] is [None] or a list, as in the client library, where [None]
    is the default.  (An object without the attribute reads as the empty
    list, [Some []], through [getattr(content, "parts", [])].) *)
Record Content := { parts : option (list Part) }.
Record Candidate := { content : option Content }.
Record GenerateContentResponse := { candidates : option (list Candidate) }.

(** ** HTTP objects *)

Record FileStorage := { filename : string; stream : bytes }.

(** A [MultiDict]: [get] answers with the first value of the key. *)
Definition multidict (A : Type) := list (string * A).

Fixpoint multidict_get {A} (d : multidict A) (k : string) : option A :=
  match d with
  | [] => None
  | (k', v) :: d' => if Text.string_eqb k' k then Some v else multidict_get d' k
  end.

Record Request := {
  files : multidict FileStorage;
  form : multidict string;
  args : multidict string
}.

Inductive Response :=
| Json (status : nat) (body : list (string * string))
| SendFile (p : path) (mimetype : string) (sent : option bytes).

(** [jsonify({"error": msg}), status] *)
Definition json_error (msg : string) (status : nat) : Response :=
  Json status [("error", msg)].

Definition status_of (r : Response) : nat :=
  match r with Json st _ => st | SendFile _ _ _ => 200 end.

(** ** State and error monad *)

Definition M (A : Type) : Type := fs -> (exn + A) * fs.

Definition ret {A} (a : A) : M A := fun s => (inr a, s).
Definition raise {A} (e : exn) : M A := fun s => (inl e, s).
Definition bind {A B} (m : M A) (k : A -> M B) : M B :=
  fun s => match m s with
           | (inr a, s') => k a s'
           | (inl e, s') => (inl e, s')
           end.
Definition get_fs : M fs := fun s => (inr s, s).
Definition put_fs (s' : fs) : M unit := fun _ => (inr tt, s').
Definition lift {A} (r : exn + A) : M A := fun s => (r, s).

Notation "'let!' x ':=' m 'in' k" := (bind m (fun x => k))
  (at level 10, x name, m at level 100, k at level 200).

(** [a or b] on values that are [None] or a [str]. *)
Definition truthy_opt (a : option string) : bool :=
  match a with Some s => Text.truthy s | None => false end.

Definition py_or (a b : option string) : option string :=
  if truthy_opt a then a else b.

Definition newline : string := String "010"%char "".

(** ** The catalog generator ([make_products.py]) *)

Module MakeProducts.
Import Text.

(** [p.rfind(c)], counting from [i]. *)
Fixpoint rfind (c : ascii) (i : nat) (l : list ascii) : option nat :=
  match l with
  | [] => None
  | x :: l' =>
      match rfind c (S i) l' with
      | Some j => Some j
      | None => if ascii_eqb x c then Some i else None
      end
  end.

(** [os.path.splitext(p)]: the extension starts at the last dot, provided
    the dot comes after the last separator and some character between the
    separator and the dot is not a dot. *)
Definition splitext (p : string) : string * string :=
  let l := chars p in
  match rfind "." 0 l with
  | None => (p, "")
  | Some dotIndex =>
      let filenameIndex :=
        match rfind "/" 0 l with Some sepIndex => S sepIndex | None => 0 end in
      if (filenameIndex <=? dotIndex)%nat &&
         existsb (fun c => negb (ascii_eqb c "."))
                 (take (dotIndex - filenameIndex) (drop filenameIndex l))
      then (text (take dotIndex l), text (drop dotIndex l))
      else (p, "")
  end.

(** [valid_exts = {".png", ".jpg", ".jpeg", ".webp"}] *)
Definition valid_exts : list string := [".png"; ".jpg"; ".jpeg"; ".webp"].

(** [ext = os.path.splitext(file)[1].lower(); ext in valid_exts] *)
Definition has_valid_ext (file : string) : bool :=
  mem (lower (snd (splitext file))) valid_exts.

(** [str(n)] for a natural number. *)
Definition str_of_nat (n : nat) : string :=
  NilEmpty.string_of_uint (Nat.to_uint n).

Record vec3 := { x : Q; y : Q; z : Q }.

Record item := {
  id : string;
  name : string;
  thumb : string;
  src : string;
  position : vec3;
  rotation : vec3;
  scale : vec3
}.

(** The dictionary built for the [i]-th valid file. *)
Definition make_item (i : nat) (file : string) : item :=
  {| id := "item" +:+ str_of_nat (i + 1);
     name := "Style " +:+ fst (splitext file);
     thumb := "assets/img_out/" +:+ file;
     src := "assets/img_out/" +:+ file;
     position := {| x := 0%Q; y := (- (7 # 100))%Q; z := 0%Q |};
     rotation := {| x := 0%Q; y := 0%Q; z := 0%Q |};
     scale := {| x := (6 # 10)%Q; y := (22 # 100)%Q; z := 1%Q |} |}.

(** [for i, file in enumerate(valid_files)] *)
Fixpoint enumerate_from {A} (i : nat) (l : list A) : list (nat * A) :=
  match l with
  | [] => []
  | a :: l' => (i, a) :: enumerate_from (S i) l'
  end.

Section WithPillow.

(** [with Image.open(file_path) as img: img.verify()] succeeds. *)
Variable image_verifies : bytes -> bool.

(** Opening a folder entry as an image: a directory cannot be opened. *)
Definition opens_as_image (folder : list entry) (file : string) : bool :=
  match lookup_entry folder file with
  | Some (Entry _ (File content)) => image_verifies content
  | _ => false
  end.

(** Step 1: [sorted(os.listdir(folder))], then the extension test and the
    image check. *)
Definition valid_files (folder : list entry) : list string :=
  List.filter (fun file => has_valid_ext file && opens_as_image folder file)
              (merge_sort String.le (map e_name folder)).

(** Step 2: the list written to [products.json]. *)
Definition items (folder : list entry) : list item :=
  map (fun '(i, file) => make_item i file) (enumerate_from 0 (valid_files folder)).

(** Step 4: the two counts of the summary. *)
Definition summary (folder : list entry) : nat * nat :=
  (length (valid_files folder),
   length (map e_name folder) - length (valid_files folder)).

End WithPillow.

End MakeProducts.

(** ** The directory tree printer ([diagnose_imports.py]) *)

Module Diagnose.

#[local] Set Warnings "-register-all".

Inductive tree :=
| Leaf (name : string)
| Folder (name : string) (children : list tree).

Definition tree_name (t : tree) : string :=
  match t with Leaf n => n | Folder n _ => n end.

(** [sorted(p.iterdir())]: the children by name. *)
Definition by_name (a b : tree) : Prop := String.le (tree_name a) (tree_name b).

#[global] Instance by_name_dec : RelDecision by_name :=
  fun a b => String.le_dec (tree_name a) (tree_name b).

(** ["  " * n] *)
Fixpoint spaces (n : nat) : string :=
  match n with O => "" | S k => "  " +:+ spaces k end.

(** [prefix = "  " * curdepth + ("└─ " if curdepth > 0 else "")] *)
Definition line_prefix (curdepth : nat) : string :=
  spaces curdepth +:+ (if (0 <? curdepth)%nat then "└─ " else "").

(** [_walk(p, curdepth)] over the children of [p].  The recursion stops at
    [curdepth > depth]; [levels] is [depth + 1 - curdepth], the number of
    levels still to be printed. *)
Fixpoint walk (levels : nat) (curdepth : nat) (children : list tree) : list string :=
  match levels with
  | O => []
  | S levels' =>
      (fix each (cs : list tree) : list string :=
         match cs with
         | [] => []
         | child :: cs' =>
             (line_prefix curdepth +:+ tree_name child) ::
             (match child with
              | Leaf _ => []
              | Folder _ grand => walk levels' (S curdepth) grand
              end) ++ each cs'
         end) (merge_sort by_name children)
  end.

(** The lines printed for one child and what lies below it. *)
Definition lines_of_child (levels curdepth : nat) (child : tree) : list string :=
  (line_prefix curdepth +:+ tree_name child) ::
  match child with
  | Leaf _ => []
  | Folder _ grand => walk levels (S curdepth) grand
  end.

(** The lines [print_tree(root, depth)] prints for a root folder with the
    given children. *)
Definition print_tree (root : string) (children : list tree) (depth : nat)
  : list string :=
  ("=== Directory tree under " +:+ root +:+ " (depth=" +:+
   MakeProducts.str_of_nat depth +:+ ") ===") ::
  walk (S depth) 0 children ++ [""].

(** Reference count: the entries on the first [levels] levels below a
    folder with the given children. *)
Fixpoint count_levels (levels : nat) (children : list tree) : nat :=
  match levels with
  | O => 0
  | S levels' =>
      sum_list_with
        (fun child =>
           S (match child with
              | Leaf _ => 0
              | Folder _ grand => count_levels levels' grand
              end))
        children
  end.

End Diagnose.

(** ** Sample data *)

Module Sample.

Definition b (n : nat) : bytes :=
  match Byte.of_nat n with Some x => [x] | None => [] end.

Definition png_file (name : string) (n : nat) : entry := Entry name (File (b n)).

(** The catalog of the prefix-match scenario. *)
Definition dress_catalog : list entry :=
  [ png_file "dress_01_alt.png" 1; png_file "dress_01.png" 2 ].

(** A catalog offering one stem under two extensions. *)
Definition two_ext_catalog : list entry :=
  [ png_file "coat.webp" 3; png_file "coat.png" 4 ].

Definition source_order : list string := [".jpg"; ".jpeg"; ".png"; ".webp"].
Definition other_order : list string := [".webp"; ".png"; ".jpeg"; ".jpg"].

Definition empty_store (cat : list entry) : fs := FS cat ∅ ∅.

(** A stand-in for Pillow: an image is its data, empty data is not an
    image. *)
Definition image_open (d : bytes) : string + bytes :=
  match d with
  | [] => inl "cannot identify image file"
  | _ :: _ => inr d
  end.
Definition to_rgb (img : bytes) : bytes := img.
Definition image_save (img : bytes) (fmt : string) (quality : option nat) : bytes :=
  img.

Definition blob_part (d : bytes) : Part :=
  {| text := None;
     inline_data := Some {| mime_type := Some "image/png"; data := Some d |} |}.
Definition note_part (t : string) : Part :=
  {| text := Some t; inline_data := None |}.

(** Two candidates, only the second carries a payload. *)
Definition second_only : GenerateContentResponse :=
  {| candidates := Some
       [ {| content := Some {| parts := Some [note_part "no image"] |} |};
         {| content := Some {| parts := Some [note_part "here"; blob_part (b 7); blob_part (b 8)] |} |} ] |}.

Definition no_candidates : GenerateContentResponse := {| candidates := Some [] |}.
Definition absent_candidates : GenerateContentResponse := {| candidates := None |}.

Definition model_returns (r : option GenerateContentResponse)
  : string -> list Content -> string + option GenerateContentResponse :=
  fun _ _ => inr r.
Definition model_fails (msg : string)
  : string -> list Content -> string + option GenerateContentResponse :=
  fun _ _ => inl msg.

Definition photo : FileStorage := {| filename := "me.PNG"; stream := b 9 |}.

Definition request_for (outfit : string) : Request :=
  {| files := [("photo", photo)]; form := [("outfit", outfit)]; args := [] |}.

Definition request_without_outfit : Request :=
  {| files := [("photo", photo)]; form := [("prompt", "casual")]; args := [] |}.

Definition request_by_query (outfit : string) : Request :=
  {| files := [("photo", photo)]; form := [("outfit", "")]; args := [("outfit", outfit)] |}.

Definition model_name : string := "gemini-3-pro-image-preview".

(** A store in which the upload of [photo] is already saved. *)
Definition store_with_photo : fs :=
  FS dress_catalog {[ "user_photo.png" := b 9 ]} ∅.

(** A store holding an earlier result. *)
Definition store_with_result : fs :=
  FS dress_catalog ∅ {[ "tryon_result_gemini.jpg" := b 5; "other.jpg" := b 6 ]}.

(** Nothing exists beyond the listing. *)
Definition nothing_beyond : string -> exn + bool := fun _ => inr false.
Definition no_hits : string -> exn + list hit := fun _ => inr [].
Definition no_subfolders : string -> list string := fun _ => [].
Definition unreadable : string -> exn + bytes :=
  fun n => inl (FileNotFoundError ("No such file or directory: " +:+ n)).

End Sample.

(** ** More sample data *)

Module Fixture.

(** A catalog with a text file, an upper-case extension and a sub-folder
    whose name looks like an image. *)
Definition shirts : list entry :=
  [ Entry "shirt_notes.txt" (File (Sample.b 1));
    Entry "shirt_blue.PNG" (File (Sample.b 2));
    Entry "shirt_red.png" (File (Sample.b 3));
    Entry "coat.png" Directory ].

(** An upload that is not an image. *)
Definition broken_photo : FileStorage := {| filename := "me.jpg"; stream := [] |}.

Definition store_with_broken_photo : fs :=
  FS shirts {[ "user_photo.jpg" := [] ]} ∅.

Definition verifies (content : bytes) : bool :=
  match content with [] => false | _ :: _ => true end.

(** A content as the client library builds it by default: [parts] is
    [None]. *)
Definition empty_content : Content := {| parts := None |}.

(** Two candidates: the first has a content without parts, the second
    carries a payload. *)
Definition payload_second : GenerateContentResponse :=
  {| candidates := Some
       [ {| content := Some empty_content |};
         {| content := Some {| parts := Some [Sample.blob_part (Sample.b 7)] |} |} ] |}.

(** One candidate whose content has no parts. *)
Definition no_parts : GenerateContentResponse :=
  {| candidates := Some [ {| content := Some empty_content |} ] |}.

End Fixture.

(** ** The program *)

Section Program.

Set Default Proof Using "Type".

(** The order in which [for ext in ALLOWED_EXTS] visits the set. *)
Variable ext_order : list string.

(** [GEMINI_MODEL], read from the environment and stripped. *)
Variable GEMINI_MODEL : string.

(** Pillow: decoded images, [Image.open] (an error text when the data is not
    an image), [convert("RGB")] and [save(buf, format=..., quality=...)]. *)
Variable Image : Type.
Variable Image_open : bytes -> string + Image.
Variable convert_RGB : Image -> Image.
Variable Image_save : Image -> string -> option nat -> bytes.

(** [client.models.generate_content(model=..., contents=...)]: an error text
    when the call raises, else the response object (possibly [None]). *)
Variable generate_content :
  string -> list Content -> string + option GenerateContentResponse.

(** What lies beyond the listing of [IMG_DIR] (other folders of the
    machine, the contents of sub-folders, names the file system refuses),
    as it stands while a request is served: what [exists()] gives for a
    joined text, what a pattern of several components yields, the folders
    below a sub-folder in the order of a walk, and what reading such a path
    gives. *)
Variable exists_beyond : string -> exn + bool.
Variable glob_beyond : string -> exn + list hit.
Variable subfolders : string -> list string.
Variable read_beyond : string -> exn + bytes.

(** *** Asset resolver *)

(** [(IMG_DIR / n).exists()]; [IMG_DIR] itself exists. *)
Definition exists_in (cat : list entry) (n : string) : exn + bool :=
  match locate n with
  | Self => inr true
  | Child c =>
      inr match lookup_entry cat c with Some _ => true | None => false end
  | Beyond => exists_beyond n
  end.

Definition folder_hit (n : string) : hit := {| h_name := n; h_is_file := false |}.

(** What the pattern ["**"] yields: the folder, then each sub-folder of the
    listing followed by the folders below it.  None of them is a file. *)
Definition folders (cat : list entry) : list hit :=
  folder_hit "" ::
  concat (map (fun e => if is_dir e
                        then folder_hit (e_name e) :: map folder_hit (subfolders (e_name e))
                        else [])
              cat).

(** [IMG_DIR.glob(pat)] (pathlib of Python 3.11): the empty pattern, an
    absolute pattern and a component that contains ["**"] without being it
    are refused; a pattern that ends with the separator selects folders
    only, which is left to [glob_beyond]; a single component with pattern
    characters is matched against the names of the listing, in listing
    order. *)
Definition glob (cat : list entry) (pat : string) : exn + list hit :=
  if negb (Text.truthy pat)
  then inl (ValueError "Unacceptable pattern: ''")
  else if is_absolute pat
  then inl (NotImplementedError "Non-relative patterns are unsupported")
  else
    let ps := map Text.text (PurePath.parts pat) in
    if existsb (fun q => Text.str_in "**" q && negb (Text.string_eqb q "**")) ps
    then inl (ValueError "Invalid pattern: '**' can only be an entire path component")
    else if ends_with_sep pat then glob_beyond pat
    else
      match ps with
      | [q] =>
          if Text.string_eqb q "**" then inr (folders cat)
          else if Fnmatch.has_magic q
          then inr (map hit_of (List.filter (fun e => Fnmatch.fnmatch (e_name e) q) cat))
          else glob_beyond pat
      | _ => glob_beyond pat
      end.

(** [list_outfits()], before sorting: the names of the allowed files. *)
Definition outfit_names (cat : list entry) : list string :=
  map e_name (List.filter (fun p => is_file p && allowed_file (e_name p)) cat).

(** [candidate.name] for [candidate = IMG_DIR / name]: the final component
    of the joined path, the folder's own name when [name] adds none. *)
Definition candidate_name (name : string) : string :=
  let n := PurePath.name name in
  if is_absolute name then n
  else if Text.truthy n then n else "img_out".

(** [candidate.exists() and allowed_file(candidate.name)] *)
Definition exact_match (cat : list entry) (name : string) : exn + bool :=
  match exists_in cat name with
  | inl e => inl e
  | inr found => inr (found && allowed_file (candidate_name name))
  end.

(** [for ext in ALLOWED_EXTS: p = IMG_DIR / f"{name}{ext}";
     if p.exists(): return p] *)
Fixpoint first_existing (cat : list entry) (name : string) (exts : list string)
  : exn + option path :=
  match exts with
  | [] => inr None
  | ext :: exts' =>
      let p := name +:+ ext in
      match exists_in cat p with
      | inl e => inl e
      | inr true => inr (Some (IMG_DIR // p))
      | inr false => first_existing cat name exts'
      end
  end.

(** [for p in ...: if p.is_file() and allowed_file(p.name): return p] *)
Fixpoint first_allowed_file (ps : list hit) : option path :=
  match ps with
  | [] => None
  | p :: ps' =>
      if h_is_file p && allowed_file (PurePath.name (h_name p))
      then Some (IMG_DIR // h_name p)
      else first_allowed_file ps'
  end.

Definition find_outfit_path (cat : list entry) (name : string) : exn + path :=
  match exact_match cat name with
  | inl e => inl e
  | inr true => inr (IMG_DIR // name)
  | inr false =>
      match first_existing cat name ext_order with
      | inl e => inl e
      | inr (Some p) => inr p
      | inr None =>
          match glob cat (name +:+ "*") with
          | inl e => inl e
          | inr ps =>
              match first_allowed_file ps with
              | Some p => inr p
              | None => inl (FileNotFoundError ("Outfit not found: " +:+ name))
              end
          end
      end
  end.

(** *** Image normalizer *)

(** Opening a path for reading. *)
Definition read_bytes (p : path) : M bytes :=
  fun s =>
    match p_dir p with
    | IMG_DIR =>
        match locate (p_name p) with
        | Self => (inl (IsADirectoryError ("Is a directory: " +:+ p_name p)), s)
        | Child c =>
            match lookup_entry (img_dir s) c with
            | Some (Entry _ (File b)) => (inr b, s)
            | Some (Entry _ Directory) =>
                (inl (IsADirectoryError ("Is a directory: " +:+ p_name p)), s)
            | None =>
                (inl (FileNotFoundError ("No such file or directory: " +:+ p_name p)), s)
            end
        | Beyond => (read_beyond (p_name p), s)
        end
    | UPLOADS_DIR =>
        match uploads s !! p_name p with
        | Some b => (inr b, s)
        | None =>
            (inl (FileNotFoundError ("No such file or directory: " +:+ p_name p)), s)
        end
    | OUTPUT_DIR =>
        match output s !! p_name p with
        | Some b => (inr b, s)
        | None =>
            (inl (FileNotFoundError ("No such file or directory: " +:+ p_name p)), s)
        end
    end.

(** [Image.open(...).convert("RGB")] *)
Definition open_rgb (b : bytes) : M Image :=
  match Image_open b with
  | inl msg => raise (UnidentifiedImageError msg)
  | inr img => ret (convert_RGB img)
  end.

Definition image_to_png_bytes (p : path) : M bytes :=
  let! raw := read_bytes p in
  let! img := open_rgb raw in
  ret (Image_save img "PNG" None).

(** *** Request builder *)

Definition base_prompt : string :=
  "You are a professional virtual try-on system." +:+ newline +:+
  "Take the person from the first image (user photo) and realistically dress them in the " +:+
  "clothing from the second image (outfit image)." +:+ newline +:+
  "Keep the person's face, pose, body shape, skin tone, lighting, and background natural." +:+ newline +:+
  "Make the garment follow the body with realistic folds, shadows, and perspective." +:+ newline +:+
  "Return ONLY the final composited try-on image, no borders, no text, no collages.".

(** [if extra_prompt: base_prompt += "\nExtra styling instructions: " + extra_prompt] *)
Definition tryon_prompt (extra_prompt : string) : string :=
  if Text.truthy extra_prompt
  then base_prompt +:+ newline +:+ "Extra styling instructions: " +:+ extra_prompt
  else base_prompt.

Definition text_part (t : string) : Part :=
  {| text := Some t; inline_data := None |}.

Definition png_part (b : bytes) : Part :=
  {| text := None;
     inline_data := Some {| mime_type := Some "image/png"; data := Some b |} |}.

(** The [contents] list of [run_gemini_tryon]. *)
Definition tryon_contents (user_bytes outfit_bytes : bytes) (extra_prompt : string)
  : list Content :=
  [ {| parts := Some [ text_part (tryon_prompt extra_prompt);
                       png_part user_bytes;
                       png_part outfit_bytes ] |} ].

(** *** Response extractor *)

Definition nonempty {A} (l : list A) : bool :=
  match l with [] => false | _ :: _ => true end.

(** Truth value of [image_bytes]: neither [None] nor empty. *)
Definition truthy_bytes (b : option bytes) : bool :=
  match b with Some d => nonempty d | None => false end.

(** [inline = getattr(part, "inline_data", None)] and the test
    [inline and getattr(inline, "data", None)]: the payload when it holds. *)
Definition payload_of (part : Part) : option bytes :=
  match inline_data part with
  | Some inline =>
      match data inline with
      | Some d => if nonempty d then Some d else None
      | None => None
      end
  | None => None
  end.

(** The inner loop over the parts; [image_bytes] is the variable it may
    assign before [break]. *)
Fixpoint scan_parts (ps : list Part) (image_bytes : option bytes) : option bytes :=
  match ps with
  | [] => image_bytes
  | part :: ps' =>
      match payload_of part with
      | Some d => Some d
      | None => scan_parts ps' image_bytes
      end
  end.

(** The outer loop over the candidates.  [getattr(content, "parts", [])]
    is [None] when the attribute is there and holds [None]; iterating over
    it raises. *)
Fixpoint scan_candidates (cs : list Candidate) (image_bytes : option bytes)
  : exn + option bytes :=
  match cs with
  | [] => inr image_bytes
  | cand :: cs' =>
      match content cand with
      | None => scan_candidates cs' image_bytes
      | Some c =>
          match parts c with
          | None => inl (TypeError "'NoneType' object is not iterable")
          | Some ps =>
              let image_bytes := scan_parts ps image_bytes in
              if truthy_bytes image_bytes then inr image_bytes
              else scan_candidates cs' image_bytes
          end
      end
  end.

Definition extract_image_bytes (response : option GenerateContentResponse)
  : exn + option bytes :=
  match response with
  | Some r =>
      match candidates r with
      | Some cs => if nonempty cs then scan_candidates cs None else inr None
      | None => inr None
      end
  | None => inr None
  end.

Definition no_image_message : string :=
  "Gemini did not return an image. " +:+
  "Model used: " +:+ GEMINI_MODEL +:+ ". Check the model ID in AI Studio " +:+
  "and your project quota.".

(** *** Result materializer *)

Definition out_name : string := "tryon_result_gemini.jpg".

(** Writing a file of [OUTPUT_DIR]: the new content replaces the old. *)
Definition save_output (name : string) (b : bytes) : M unit :=
  fun s => (inr tt, FS (img_dir s) (uploads s) (<[name := b]> (output s))).

(** Writing a file of [UPLOADS_DIR]. *)
Definition save_upload (name : string) (b : bytes) : M unit :=
  fun s => (inr tt, FS (img_dir s) (<[name := b]> (uploads s)) (output s)).

(** Lines 196-199 of [run_gemini_tryon]. *)
Definition materialize (image_bytes : bytes) : M path :=
  let out_path := OUTPUT_DIR // out_name in
  let! img := open_rgb image_bytes in
  let! _ := save_output out_name (Image_save img "JPEG" (Some 95)) in
  ret out_path.

Definition call_model (contents : list Content) : M (option GenerateContentResponse) :=
  match generate_content GEMINI_MODEL contents with
  | inl msg => raise (UpstreamError msg)
  | inr response => ret response
  end.

Definition run_gemini_tryon (user_path outfit_path : path) (extra_prompt : string)
  : M path :=
  let! user_bytes := image_to_png_bytes user_path in
  let! outfit_bytes := image_to_png_bytes outfit_path in
  let contents := tryon_contents user_bytes outfit_bytes extra_prompt in
  let! response := call_model contents in
  match extract_image_bytes response with
  | inl e => raise e
  | inr None => raise (RuntimeError no_image_message)
  | inr (Some image_bytes) => materialize image_bytes
  end.

(** *** Request handler *)

Definition quota_message : string :=
  "Gemini quota exhausted for this model. " +:+
  "Use a cheaper model or add billing in Google AI Studio.".

(** ["RESOURCE_EXHAUSTED" in msg or "quota" in msg.lower()] *)
Definition quota_text (msg : string) : bool :=
  Text.str_in "RESOURCE_EXHAUSTED" msg || Text.str_in "quota" (Text.lower msg).

(** The [except Exception as e] clause of [api_tryon]. *)
Definition error_response (e : exn) : Response :=
  let msg := str e in
  let msg := if quota_text msg then quota_message else msg in
  json_error ("Try-on error: " +:+ msg) 500.

(** [request.form.get("outfit") or request.form.get("outfit_name")
     or request.args.get("outfit")] *)
Definition outfit_param (request : Request) : option string :=
  py_or (py_or (multidict_get (form request) "outfit")
               (multidict_get (form request) "outfit_name"))
        (multidict_get (args request) "outfit").

(** [ext = Path(photo.filename).suffix.lower() or ".jpg";
     if ext not in ALLOWED_EXTS: ext = ".jpg"] *)
Definition upload_ext (photo_filename : string) : string :=
  let ext := Text.lower (PurePath.suffix photo_filename) in
  let ext := if Text.truthy ext then ext else ".jpg" in
  if negb (in_allowed_exts ext) then ".jpg" else ext.

Definition user_photo_name (photo_filename : string) : string :=
  "user_photo" +:+ upload_ext photo_filename.

(** The content of a file, if [p] names one. *)
Definition file_content (s : fs) (p : path) : option bytes :=
  match p_dir p with
  | IMG_DIR =>
      match lookup_entry (img_dir s) (p_name p) with
      | Some (Entry _ (File b)) => Some b
      | _ => None
      end
  | UPLOADS_DIR => uploads s !! p_name p
  | OUTPUT_DIR => output s !! p_name p
  end.

(** [send_file(result_path, mimetype=...)] *)
Definition send_file (p : path) (mimetype : string) : M Response :=
  fun s => (inr (SendFile p mimetype (file_content s p)), s).

(** The body of the outer [try] of [api_tryon]. *)
Definition tryon_body (request : Request) : M Response :=
  match multidict_get (files request) "photo" with
  | None => ret (json_error "Missing 'photo' file." 400)
  | Some photo =>
      if negb (truthy_opt (outfit_param request))
      then ret (json_error "Missing 'outfit' parameter." 400)
      else
        let outfit_name := default "" (outfit_param request) in
        let prompt := default "" (py_or (multidict_get (form request) "prompt") (Some "")) in
        let user_path := UPLOADS_DIR // user_photo_name (filename photo) in
        let! _ := save_upload (p_name user_path) (stream photo) in
        let! s := get_fs in
        match find_outfit_path (img_dir s) outfit_name with
        | inl (FileNotFoundError _ as e) => ret (json_error (str e) 404)
        | inl e => raise e
        | inr outfit_path =>
            let! result_path := run_gemini_tryon user_path outfit_path prompt in
            send_file result_path "image/jpeg"
        end
  end.

Definition api_tryon (request : Request) (s : fs) : Response * fs :=
  match tryon_body request s with
  | (inr r, s') => (r, s')
  | (inl e, s') => (error_response e, s')
  end.


(** The store once the upload is saved. *)
Definition with_upload (s : fs) (photo : FileStorage) : fs :=
  FS (img_dir s) (<[user_photo_name (filename photo) := stream photo]> (uploads s))
     (output s).

(** *** Outfit listing *)

(** [list_outfits()]; [folder] is [None] when [IMG_DIR] does not exist. *)
Definition list_outfits (folder : option (list entry)) : list string :=
  match folder with
  | None => []
  | Some cat => merge_sort String.le (outfit_names cat)
  end.

(** *** Reference definitions for the extractor

    The payloads of a response in scanning order: candidates in order, and
    within a candidate that has a content, its parts in order. *)

Definition candidate_payloads (cand : Candidate) : list bytes :=
  match content cand with
  | Some c => omap payload_of (default [] (parts c))
  | None => []
  end.

Definition payloads_in_order (response : option GenerateContentResponse)
  : list bytes :=
  match response with
  | Some r =>
      match candidates r with
      | Some cs => concat (map candidate_payloads cs)
      | None => []
      end
  | None => []
  end.

(** Every content of the candidates has a list of parts. *)
Definition parts_iterable (cs : list Candidate) : Prop :=
  Forall (fun cand =>
            match content cand with
            | Some c => is_Some (parts c)
            | None => True
            end) cs.

(** The same for a response: the candidates it offers, if any. *)
Definition response_iterable (response : option GenerateContentResponse) : Prop :=
  match response with
  | Some r =>
      match candidates r with
      | Some cs => parts_iterable cs
      | None => True
      end
  | None => True
  end.

(** * Properties *)

(** ** Text *)

Lemma string_eqb_true a b : Text.string_eqb a b = true <-> a = b.
Proof. unfold Text.string_eqb. apply String.eqb_eq. Qed.

Lemma string_eqb_refl a : Text.string_eqb a a = true.
Proof. by apply string_eqb_true. Qed.

Lemma ascii_eqb_true a b : Text.ascii_eqb a b = true <-> a = b.
Proof. unfold Text.ascii_eqb. apply Ascii.eqb_eq. Qed.

Lemma ascii_eqb_refl a : Text.ascii_eqb a a = true.
Proof. by apply ascii_eqb_true. Qed.

Lemma chars_app a b : Text.chars (a +:+ b) = Text.chars a ++ Text.chars b.
Proof. induction a as [|c a IH]; simpl; [done | by rewrite IH]. Qed.

Lemma text_chars s : Text.text (Text.chars s) = s.
Proof. apply string_of_list_ascii_of_string. Qed.

Lemma chars_text l : Text.chars (Text.text l) = l.
Proof. apply list_ascii_of_string_of_list_ascii. Qed.

Lemma chars_inj a b : Text.chars a = Text.chars b -> a = b.
Proof. intros H. by rewrite <- (text_chars a), <- (text_chars b), H. Qed.

Lemma is_prefix_app l s : Text.is_prefix l (l ++ s) = true.
Proof. induction l as [|c l IH]; simpl; [done|]. by rewrite ascii_eqb_refl. Qed.

Lemma is_prefix_true l s : Text.is_prefix l s = true <-> exists t, s = l ++ t.
Proof.
  revert s. induction l as [|c l IH]; intros s; simpl.
  - split; [intros _; by exists s | done].
  - destruct s as [|d s]; [split; [done | intros [t Ht]; discriminate]|].
    rewrite andb_true_iff, ascii_eqb_true, IH. split.
    + intros [-> [t ->]]. by exists t.
    + intros [t Ht]. injection Ht as -> ->. eauto.
Qed.

Lemma contains_prefix sub s : Text.is_prefix sub s = true -> Text.contains sub s = true.
Proof. intros H. destruct s; simpl; by rewrite H. Qed.

Lemma contains_app pre sub post : Text.contains sub (pre ++ sub ++ post) = true.
Proof.
  induction pre as [|c pre IH]; simpl.
  - apply contains_prefix, is_prefix_app.
  - rewrite IH. apply orb_true_r.
Qed.

Lemma str_in_middle pre sub post : Text.str_in sub (pre +:+ sub +:+ post) = true.
Proof. unfold Text.str_in. rewrite !chars_app. apply contains_app. Qed.

(** ** Paths and extensions *)

Lemma split_slash_no_slash acc l :
  no_slash l -> PurePath.split_slash acc l = [rev acc ++ l].
Proof.
  revert acc. induction l as [|c l IH]; intros acc Hl; simpl.
  - by rewrite app_nil_r.
  - apply Forall_cons in Hl as [Hc Hl].
    destruct (Text.ascii_eqb c "/") eqn:E; [by apply ascii_eqb_true in E|].
    rewrite (IH (c :: acc) Hl). simpl. by rewrite <- app_assoc.
Qed.

Lemma split_slash_components acc l :
  no_slash acc -> Forall no_slash (PurePath.split_slash acc l).
Proof.
  revert acc. induction l as [|c l IH]; intros acc Hacc; simpl.
  - apply Forall_singleton. unfold no_slash. by apply Forall_rev.
  - destruct (Text.ascii_eqb c "/") eqn:E.
    + apply Forall_cons. split; [unfold no_slash; by apply Forall_rev|].
      apply IH. constructor.
    + apply IH. apply Forall_cons. split; [|done].
      intros ->. by rewrite ascii_eqb_refl in E.
Qed.

Lemma last_elem_of {A} (l : list A) d : l <> [] -> List.last l d ∈ l.
Proof.
  induction l as [|a l IH]; [done|]. intros _.
  destruct l as [|b l]; [by left|].
  right. by apply IH.
Qed.

(** The final component of a path is a single kept component, or empty. *)
Lemma name_component s :
  let c := List.last (PurePath.parts s) [] in
  PurePath.name s = Text.text c /\
  (c = [] \/ (PurePath.keeps c = true /\ no_slash c)).
Proof.
  simpl. split; [done|].
  destruct (PurePath.parts s) as [|a l] eqn:E; [by left|]. right.
  assert (List.last (a :: l) [] ∈ PurePath.parts s) as Hin.
  { rewrite E. by apply last_elem_of. }
  unfold PurePath.parts in Hin. apply list_elem_of_filter in Hin as [Hk Hin].
  split; [done|].
  pose proof (split_slash_components [] (Text.chars s)) as Hall.
  rewrite Forall_forall in Hall. apply Hall; [constructor | done].
Qed.

Lemma name_of_component c :
  PurePath.keeps c = true -> no_slash c -> PurePath.name (Text.text c) = Text.text c.
Proof.
  intros Hk Hn. unfold PurePath.name, PurePath.parts.
  rewrite chars_text, (split_slash_no_slash [] c Hn). simpl.
  rewrite filter_cons_True by done. done.
Qed.

Lemma name_idempotent s : PurePath.name (PurePath.name s) = PurePath.name s.
Proof.
  destruct (name_component s) as [-> [-> | [Hk Hn] ] ]; [done|].
  by apply name_of_component.
Qed.

Lemma suffix_of_name s : PurePath.suffix (PurePath.name s) = PurePath.suffix s.
Proof. unfold PurePath.suffix. by rewrite name_idempotent. Qed.

Lemma allowed_file_of_name s : allowed_file (PurePath.name s) = allowed_file s.
Proof. unfold allowed_file. by rewrite suffix_of_name. Qed.

Lemma allowed_candidate_name n :
  allowed_file n = true -> allowed_file (candidate_name n) = true.
Proof.
  intros H. rewrite <- allowed_file_of_name in H. unfold candidate_name.
  destruct (is_absolute n); [done|].
  by destruct (PurePath.name n).
Qed.

Lemma in_allowed_exts_elem ext : in_allowed_exts ext = true <-> ext ∈ ALLOWED_EXTS.
Proof.
  unfold in_allowed_exts, Text.mem. rewrite existsb_exists. split.
  - intros (x & Hin & Heq). apply string_eqb_true in Heq as ->.
    by apply list_elem_of_In.
  - intros H. exists ext. split; [by apply list_elem_of_In | apply string_eqb_refl].
Qed.

(** X1. [allowed_file] looks at the final path component only, and at its
    extension without regard to case: a name is allowed exactly when the
    lower-cased suffix of its final component is one of the four
    extensions. *)
Theorem allowed_file_final_component s :
  allowed_file s = allowed_file (PurePath.name s) /\
  (allowed_file s = true <->
   Text.lower (PurePath.suffix (PurePath.name s)) ∈ ALLOWED_EXTS).
Proof.
  split; [by rewrite allowed_file_of_name|].
  rewrite suffix_of_name. unfold allowed_file. apply in_allowed_exts_elem.
Qed.

(** ** Response extractor *)

Lemma payload_of_nonempty part d : payload_of part = Some d -> nonempty d = true.
Proof.
  unfold payload_of. destruct (inline_data part) as [inline|]; [|done].
  destruct (data inline) as [d'|]; [|done].
  destruct (nonempty d') eqn:E; [|done]. by intros [= <-].
Qed.

(** The inner loop returns the first payload of the parts, and leaves the
    variable alone when there is none. *)
Lemma scan_parts_head ps image_bytes :
  scan_parts ps image_bytes =
  match head (omap payload_of ps) with
  | Some d => Some d
  | None => image_bytes
  end.
Proof.
  induction ps as [|part ps IH]; simpl; [done|].
  destruct (payload_of part); simpl; [done | apply IH].
Qed.

Lemma head_omap_nonempty ps d :
  head (omap payload_of ps) = Some d -> nonempty d = true.
Proof.
  induction ps as [|part ps IH]; simpl; [done|].
  destruct (payload_of part) eqn:E; simpl; [|done].
  intros [= <-]. by eapply payload_of_nonempty.
Qed.

Lemma scan_candidates_head cs :
  parts_iterable cs ->
  scan_candidates cs None = inr (head (concat (map candidate_payloads cs))).
Proof.
  induction 1 as [|cand cs Hc _ IH]; simpl; [done|].
  unfold candidate_payloads at 1.
  destruct (content cand) as [c|]; simpl; [|done].
  destruct Hc as [ps Hps]. rewrite Hps. simpl.
  rewrite scan_parts_head.
  destruct (omap payload_of ps) as [|d l] eqn:E; simpl; [done|].
  assert (nonempty d = true) as ->; [|done].
  apply (head_omap_nonempty ps). by rewrite E.
Qed.

(** On a response whose contents all have a list of parts, the extractor
    returns the first payload in scanning order. *)
Lemma extract_head response :
  response_iterable response ->
  extract_image_bytes response = inr (head (payloads_in_order response)).
Proof.
  destruct response as [[[cs|]]|]; simpl; [|done..].
  intros H. destruct cs; [done|]. by apply scan_candidates_head.
Qed.

(** The scan raises at the first content without a list of parts when no
    payload was met before it. *)
Lemma scan_candidates_raises pre c post :
  parts_iterable pre ->
  concat (map candidate_payloads pre) = [] ->
  parts c = None ->
  scan_candidates (pre ++ {| content := Some c |} :: post) None =
    inl (TypeError "'NoneType' object is not iterable").
Proof.
  intros Hpre. induction Hpre as [|cand cs Hc _ IH]; simpl; intros Hno Hc0.
  - by rewrite Hc0.
  - apply app_eq_nil in Hno as [H1 H2].
    unfold candidate_payloads in H1.
    destruct (content cand) as [c'|]; [|by apply IH].
    destruct Hc as [ps Hps]. rewrite Hps in *. simpl in H1.
    rewrite scan_parts_head, H1. simpl. by apply IH.
Qed.

(** ** Normalizer and pipeline steps leave the store alone *)

Lemma read_bytes_state p s : snd (read_bytes p s) = s.
Proof.
  unfold read_bytes. destruct (p_dir p).
  - destruct (locate (p_name p)); [done | | done].
    destruct (lookup_entry _ _) as [[? []]|]; done.
  - destruct (uploads s !! p_name p); done.
  - destruct (output s !! p_name p); done.
Qed.

Lemma open_rgb_state d s : snd (open_rgb d s) = s.
Proof. unfold open_rgb. by destruct (Image_open d). Qed.

Lemma image_to_png_bytes_state p s : snd (image_to_png_bytes p s) = s.
Proof.
  unfold image_to_png_bytes, bind.
  pose proof (read_bytes_state p s) as H1.
  destruct (read_bytes p s) as [[e|raw] s1]; simpl in *; subst; [done|].
  pose proof (open_rgb_state raw s) as H2.
  destruct (open_rgb raw s) as [[e|img] s2]; simpl in *; subst; done.
Qed.

Lemma image_to_png_bytes_ok p s v :
  fst (image_to_png_bytes p s) = inr v -> image_to_png_bytes p s = (inr v, s).
Proof.
  intros H. pose proof (image_to_png_bytes_state p s) as Hs.
  destruct (image_to_png_bytes p s) as [r s']. simpl in *. by subst.
Qed.

(** What [run_gemini_tryon] does once both images are normalized and the
    model has answered. *)
Lemma run_gemini_tryon_after_call user_path outfit_path extra s ub ob response :
  fst (image_to_png_bytes user_path s) = inr ub ->
  fst (image_to_png_bytes outfit_path s) = inr ob ->
  generate_content GEMINI_MODEL (tryon_contents ub ob extra) = inr response ->
  run_gemini_tryon user_path outfit_path extra s =
  match extract_image_bytes response with
  | inl e => (inl e, s)
  | inr None => (inl (RuntimeError no_image_message), s)
  | inr (Some image_bytes) => materialize image_bytes s
  end.
Proof.
  intros Hu Ho Hg. unfold run_gemini_tryon, bind.
  rewrite (image_to_png_bytes_ok _ _ _ Hu), (image_to_png_bytes_ok _ _ _ Ho).
  unfold call_model. rewrite Hg. simpl.
  by destruct (extract_image_bytes response) as [e|[d|]].
Qed.

Lemma no_image_message_text :
  no_image_message =
    "Gemini did not return an image. Model used: " +:+ GEMINI_MODEL +:+
    ". Check the model ID in AI Studio and your project quota.".
Proof. done. Qed.

Lemma no_image_message_names_model :
  Text.str_in GEMINI_MODEL no_image_message = true.
Proof. rewrite no_image_message_text. apply str_in_middle. Qed.

(** X18. On a response whose contents all have a list of parts, the
    extractor returns the first payload in scanning order, one payload
    however many there are: with two candidates of which only the second
    carries one, that payload.  A response that is absent, or whose
    candidates are absent or empty, gives nothing.  When such a response
    carries no payload, [run_gemini_tryon] raises the no-image
    [RuntimeError], whose message names the model in use, and leaves the
    store alone. *)
Theorem extraction_on_iterable_response :
  (forall response,
     response_iterable response ->
     extract_image_bytes response = inr (head (payloads_in_order response))) /\
  (forall c1 c2 d,
     parts_iterable [c1; c2] ->
     candidate_payloads c1 = [] ->
     head (candidate_payloads c2) = Some d ->
     extract_image_bytes (Some {| candidates := Some [c1; c2] |}) = inr (Some d)) /\
  (forall r,
     candidates r = None \/ candidates r = Some [] ->
     extract_image_bytes (Some r) = inr None) /\
  extract_image_bytes None = inr None /\
  (forall user_path outfit_path extra s ub ob response,
     fst (image_to_png_bytes user_path s) = inr ub ->
     fst (image_to_png_bytes outfit_path s) = inr ob ->
     generate_content GEMINI_MODEL (tryon_contents ub ob extra) = inr response ->
     response_iterable response ->
     payloads_in_order response = [] ->
     run_gemini_tryon user_path outfit_path extra s =
       (inl (RuntimeError no_image_message), s)) /\
  no_image_message =
    "Gemini did not return an image. Model used: " +:+ GEMINI_MODEL +:+
    ". Check the model ID in AI Studio and your project quota." /\
  Text.str_in GEMINI_MODEL no_image_message = true.
Proof.
  split; [exact extract_head|]. split; [|split; [|split; [|split; [|split]]]].
  - intros c1 c2 d Hit H1 H2.
    rewrite (extract_head (Some {| candidates := Some [c1; c2] |}) Hit). simpl.
    rewrite H1, app_nil_r. simpl. by rewrite H2.
  - intros r [H|H]; simpl; by rewrite H.
  - done.
  - intros user_path outfit_path extra s ub ob response Hu Ho Hg Hit Hp.
    rewrite (run_gemini_tryon_after_call _ _ _ _ _ _ _ Hu Ho Hg).
    by rewrite (extract_head _ Hit), Hp.
  - exact no_image_message_text.
  - exact no_image_message_names_model.
Qed.

(** ** Asset resolver *)

Lemma existsb_false_Forall {A} (f : A -> bool) l :
  existsb f l = false -> Forall (fun x => f x = false) l.
Proof.
  induction l as [|a l IH]; simpl; [constructor|].
  intros H. apply orb_false_iff in H as [Ha Hl]. constructor; [done | by apply IH].
Qed.

Lemma valid_name_true n :
  valid_name n = true ->
  no_slash (Text.chars n) /\ n <> "" /\ n <> "." /\ n <> ".." /\
  (String.length n <= NAME_MAX)%nat.
Proof.
  unfold valid_name. rewrite !andb_true_iff, !negb_true_iff.
  intros [[[[H1 H2] H3] H4] H5]. split; [|split; [|split; [|split]]].
  - apply existsb_false_Forall in H1. unfold no_slash.
    eapply Forall_impl; [exact H1|]. simpl. intros c Hc ->.
    by rewrite ascii_eqb_refl in Hc.
  - intros ->. by rewrite string_eqb_refl in H2.
  - intros ->. by rewrite string_eqb_refl in H3.
  - intros ->. by rewrite string_eqb_refl in H4.
  - by apply Nat.leb_le.
Qed.

Lemma no_slash_relative n : no_slash (Text.chars n) -> is_absolute n = false.
Proof.
  destruct n as [|c n]; [done|]. simpl. intros H.
  apply Forall_cons in H as [Hc _].
  destruct (Text.ascii_eqb c "/") eqn:E; [|done]. by apply ascii_eqb_true in E.
Qed.

(** A text without separator, other than [""] and ["."], is its own single
    component. *)
Lemma parts_component n :
  no_slash (Text.chars n) -> n <> "" -> n <> "." ->
  map Text.text (PurePath.parts n) = [n].
Proof.
  intros Hn H1 H2. unfold PurePath.parts.
  rewrite (split_slash_no_slash [] _ Hn). simpl.
  rewrite filter_cons_True, filter_nil; [simpl; by rewrite text_chars|].
  destruct n as [|c [|d n]]; [done | | done]. simpl.
  destruct (Text.ascii_eqb c ".") eqn:E; [|done].
  apply ascii_eqb_true in E. by subst.
Qed.

Lemma locate_valid n : valid_name n = true -> locate n = Child n.
Proof.
  intros H. destruct (valid_name_true n H) as (Hn & H1 & H2 & _).
  unfold locate. rewrite (no_slash_relative n Hn), (parts_component n Hn H1 H2).
  by rewrite H.
Qed.

Lemma lookup_entry_Some cat n e :
  lookup_entry cat n = Some e -> e ∈ cat /\ e_name e = n /\ valid_name n = true.
Proof.
  unfold lookup_entry. intros H. apply List.find_some in H as [Hin H].
  apply andb_true_iff in H as [H1 H2].
  split; [by apply list_elem_of_In|]. split; [by apply string_eqb_true | done].
Qed.

Lemma lookup_entry_name cat n e : lookup_entry cat n = Some e -> e_name e = n.
Proof. intros H. by apply lookup_entry_Some in H as (_ & H & _). Qed.

Lemma lookup_entry_elem cat e :
  e ∈ cat -> valid_name (e_name e) = true -> is_Some (lookup_entry cat (e_name e)).
Proof.
  intros Hin Hv. unfold lookup_entry.
  destruct (List.find _ cat) as [e'|] eqn:E; [by eexists|].
  apply list_elem_of_In in Hin.
  pose proof (List.find_none _ _ E e Hin) as H. simpl in H.
  by rewrite string_eqb_refl, Hv in H.
Qed.

(** A name that can name an entry exists exactly when the listing has it;
    the test does not raise. *)
Lemma exists_in_valid cat n :
  valid_name n = true ->
  exists_in cat n =
    inr match lookup_entry cat n with Some _ => true | None => false end.
Proof. intros H. unfold exists_in. by rewrite (locate_valid n H). Qed.

Lemma exists_in_entry cat e :
  e ∈ cat -> valid_name (e_name e) = true -> exists_in cat (e_name e) = inr true.
Proof.
  intros Hin Hv. rewrite (exists_in_valid _ _ Hv).
  by destruct (lookup_entry_elem cat e Hin Hv) as [e' ->].
Qed.

Lemma exists_in_true cat n :
  valid_name n = true ->
  exists_in cat n = inr true <-> exists e, e ∈ cat /\ e_name e = n.
Proof.
  intros Hv. split.
  - rewrite (exists_in_valid _ _ Hv).
    destruct (lookup_entry cat n) as [e|] eqn:E; [|done]. intros _.
    apply lookup_entry_Some in E as (Hin & Hn & _). by exists e.
  - intros (e & Hin & <-). by apply exists_in_entry.
Qed.

Lemma first_existing_Some cat name exts p :
  first_existing cat name exts = inr (Some p) ->
  exists pre ext post,
    exts = pre ++ ext :: post /\
    (forall e, e ∈ pre -> exists_in cat (name +:+ e) = inr false) /\
    exists_in cat (name +:+ ext) = inr true /\
    p = IMG_DIR // (name +:+ ext).
Proof.
  induction exts as [|ext exts IH]; simpl; [done|].
  destruct (exists_in cat (name +:+ ext)) as [e|[|]] eqn:E; [done | |].
  - intros [= <-]. exists [], ext, exts. split; [done|]. split; [|done].
    intros e He. by apply elem_of_nil in He.
  - intros H. destruct (IH H) as (pre & ext' & post & -> & Hpre & Hex & ->).
    exists (ext :: pre), ext', post. split; [done|]. split; [|done].
    intros e He. apply elem_of_cons in He as [->|He]; [done | by apply Hpre].
Qed.

Lemma first_existing_first cat name pre ext post :
  (forall e, e ∈ pre -> exists_in cat (name +:+ e) = inr false) ->
  exists_in cat (name +:+ ext) = inr true ->
  first_existing cat name (pre ++ ext :: post) = inr (Some (IMG_DIR // (name +:+ ext))).
Proof.
  intros Hpre Hex. induction pre as [|e pre IH]; simpl.
  - by rewrite Hex.
  - rewrite (Hpre e); [|by left]. apply IH. intros e' He'. apply Hpre. by right.
Qed.

Lemma first_existing_None cat name exts :
  first_existing cat name exts = inr None <->
  forall ext, ext ∈ exts -> exists_in cat (name +:+ ext) = inr false.
Proof.
  induction exts as [|ext exts IH]; simpl.
  - split; [|done]. intros _ e He. by apply elem_of_nil in He.
  - destruct (exists_in cat (name +:+ ext)) as [e|[|]] eqn:E.
    + split; [done|]. intros H. rewrite (H ext) in E; [done | by left].
    + split; [done|]. intros H. rewrite (H ext) in E; [done | by left].
    + rewrite IH. split.
      * intros H e He. apply elem_of_cons in He as [->|He]; [done | by apply H].
      * intros H e He. apply H. by right.
Qed.

(** Step 2 raises only what an existence test raises. *)
Lemma first_existing_error cat name exts e :
  first_existing cat name exts = inl e ->
  exists ext, ext ∈ exts /\ exists_in cat (name +:+ ext) = inl e.
Proof.
  induction exts as [|ext exts IH]; simpl; [done|].
  destruct (exists_in cat (name +:+ ext)) as [e'|[|]] eqn:E; [| done |].
  - intros [= <-]. exists ext. split; [by left | done].
  - intros H. destruct (IH H) as (ext' & Hin & Hex).
    exists ext'. split; [by right | done].
Qed.

Lemma first_allowed_file_None ps :
  first_allowed_file ps = None <->
  forall p, p ∈ ps -> h_is_file p && allowed_file (h_name p) = false.
Proof.
  induction ps as [|p ps IH]; simpl.
  - split; [|done]. intros _ e He. by apply elem_of_nil in He.
  - rewrite allowed_file_of_name.
    destruct (h_is_file p && allowed_file (h_name p)) eqn:E.
    + split; [done|]. intros H. rewrite (H p) in E; [done | by left].
    + rewrite IH. split.
      * intros H e He. apply elem_of_cons in He as [->|He]; [done | by apply H].
      * intros H e He. apply H. by right.
Qed.

Lemma first_allowed_file_Some ps q :
  first_allowed_file ps = Some q ->
  exists pre p post,
    ps = pre ++ p :: post /\
    (forall x, x ∈ pre -> h_is_file x && allowed_file (h_name x) = false) /\
    h_is_file p = true /\ allowed_file (h_name p) = true /\
    q = IMG_DIR // h_name p.
Proof.
  induction ps as [|p ps IH]; simpl; [done|].
  rewrite allowed_file_of_name.
  destruct (h_is_file p && allowed_file (h_name p)) eqn:E.
  - intros [= <-]. apply andb_true_iff in E as [E1 E2].
    exists [], p, ps. split; [done|]. split; [|done].
    intros e He. by apply elem_of_nil in He.
  - intros H. destruct (IH H) as (pre & p' & post & -> & Hpre & Hf & Ha & ->).
    exists (p :: pre), p', post. split; [done|]. split; [|done].
    intros e He. apply elem_of_cons in He as [->|He]; [done | by apply Hpre].
Qed.

(** Over entries of the listing, the loop of step 3 is a search for the
    first allowed file. *)
Lemma first_allowed_file_entries (keep : entry -> bool) cat :
  first_allowed_file (map hit_of (List.filter keep cat)) =
  match List.find (fun e => is_file e && allowed_file (e_name e) && keep e) cat with
  | Some e => Some (IMG_DIR // e_name e)
  | None => None
  end.
Proof.
  induction cat as [|e cat IH]; simpl; [done|].
  destruct (keep e); simpl.
  - rewrite allowed_file_of_name, andb_true_r.
    by destruct (is_file e && allowed_file (e_name e)).
  - by rewrite andb_false_r.
Qed.

(** The three steps, one after the other. *)
Lemma find_outfit_path_steps cat name :
  find_outfit_path cat name =
  match exact_match cat name with
  | inl e => inl e
  | inr true => inr (IMG_DIR // name)
  | inr false =>
      match first_existing cat name ext_order with
      | inl e => inl e
      | inr (Some p) => inr p
      | inr None =>
          match glob cat (name +:+ "*") with
          | inl e => inl e
          | inr ps =>
              match first_allowed_file ps with
              | Some p => inr p
              | None => inl (FileNotFoundError ("Outfit not found: " +:+ name))
              end
          end
      end
  end.
Proof. done. Qed.

Lemma allowed_ext_cases ext :
  ext ∈ ALLOWED_EXTS ->
  ext = ".jpg" \/ ext = ".jpeg" \/ ext = ".png" \/ ext = ".webp".
Proof.
  unfold ALLOWED_EXTS. rewrite !elem_of_cons, elem_of_nil.
  intros [H | [H | [H | [H | [] ] ] ] ];
    [by left | by right; left | by right; right; left | by right; right; right].
Qed.

(** A pattern made of an identifier without pattern characters, followed
    by [*], matches exactly the names the identifier is a prefix of. *)
Lemma translate_literal l :
  existsb Fnmatch.is_magic l = false ->
  Fnmatch.translate 0 (l ++ ["*"%char]) = map Fnmatch.Lit l ++ [Fnmatch.Star].
Proof.
  induction l as [|c l IH]; simpl; [done|].
  intros H. apply orb_false_iff in H as [Hc Hl].
  unfold Fnmatch.is_magic in Hc.
  apply orb_false_iff in Hc as [Hc H3]. apply orb_false_iff in Hc as [H1 H2].
  rewrite H1, H2, H3. f_equal. by apply IH.
Qed.

Lemma full_match_star s : Fnmatch.full_match [Fnmatch.Star] s = true.
Proof. induction s as [|c s IH]; [done | exact IH]. Qed.

Lemma full_match_literal l s :
  Fnmatch.full_match (map Fnmatch.Lit l ++ [Fnmatch.Star]) s = Text.is_prefix l s.
Proof.
  revert s. induction l as [|c l IH]; intros s.
  - apply full_match_star.
  - destruct s as [|d s]; [done|]. simpl. by rewrite IH.
Qed.

Lemma fnmatch_literal_prefix name n :
  Fnmatch.has_magic name = false ->
  Fnmatch.fnmatch n (name +:+ "*") = Text.is_prefix (Text.chars name) (Text.chars n).
Proof.
  intros H. unfold Fnmatch.fnmatch. rewrite chars_app.
  change (Text.chars "*") with ["*"%char].
  rewrite translate_literal by done. apply full_match_literal.
Qed.

(** Two stars in a row do not occur in an identifier without pattern
    characters followed by one star. *)
Lemma contains_two_stars l :
  existsb Fnmatch.is_magic l = false ->
  Text.contains ["*"; "*"]%char (l ++ ["*"%char]) = false.
Proof.
  induction l as [|c l IH]; [done|]. simpl existsb.
  intros H. apply orb_false_iff in H as [Hc Hl].
  change ((c :: l) ++ ["*"%char]) with (c :: (l ++ ["*"%char])).
  change (Text.contains ["*"; "*"]%char (c :: (l ++ ["*"%char])))
    with (Text.is_prefix ["*"; "*"]%char (c :: (l ++ ["*"%char])) ||
          Text.contains ["*"; "*"]%char (l ++ ["*"%char])).
  rewrite (IH Hl), orb_false_r.
  change (Text.is_prefix ["*"; "*"]%char (c :: (l ++ ["*"%char])))
    with (Text.ascii_eqb "*" c && Text.is_prefix ["*"%char] (l ++ ["*"%char])).
  destruct (Text.ascii_eqb "*" c) eqn:E; [|done].
  apply ascii_eqb_true in E. subst c. done.
Qed.

Lemma no_slash_app l1 l2 : no_slash l1 -> no_slash l2 -> no_slash (l1 ++ l2).
Proof. unfold no_slash. intros H1 H2. by apply Forall_app. Qed.

Lemma string_app_nil a b : a +:+ b = "" -> a = "" /\ b = "".
Proof. destruct a; simpl; [done | discriminate]. Qed.

Lemma elem_of_folders cat h : h ∈ folders cat -> h_is_file h = false.
Proof.
  unfold folders. intros Hp.
  apply elem_of_cons in Hp as [->|Hp]; [done|].
  apply list_elem_of_In, in_concat in Hp as (l & Hl & Hp).
  apply list_elem_of_In, list_elem_of_fmap in Hl as (e & -> & _).
  destruct (is_dir e); [|by apply List.in_nil in Hp].
  apply list_elem_of_In, elem_of_cons in Hp as [->|Hp]; [done|].
  by apply list_elem_of_fmap in Hp as (n & -> & _).
Qed.

Lemma has_magic_star name : Fnmatch.has_magic (name +:+ "*") = true.
Proof.
  unfold Fnmatch.has_magic. rewrite chars_app, existsb_app. apply orb_true_r.
Qed.

Lemma truthy_true n : n <> "" -> Text.truthy n = true.
Proof. by destruct n. Qed.

Lemma ends_with_sep_no_slash n :
  no_slash (Text.chars n) -> ends_with_sep n = false.
Proof.
  unfold ends_with_sep, no_slash.
  induction (Text.chars n) as [|c l IH]; [done|].
  intros H. apply Forall_cons in H as [Hc Hl].
  destruct l as [|d l]; [|by apply IH]. simpl.
  destruct (Text.ascii_eqb c "/") eqn:E; [|done]. by apply ascii_eqb_true in E.
Qed.

(** A file that [glob] yields is a file of the listing, unless the pattern
    reaches beyond the listing. *)
Lemma glob_file_hit cat pat ps h :
  glob cat pat = inr ps -> h ∈ ps -> h_is_file h = true ->
  (exists e, e ∈ cat /\ is_file e = true /\ h_name h = e_name e) \/
  glob_beyond pat = inr ps.
Proof.
  unfold glob. destruct (negb (Text.truthy pat)); [done|].
  destruct (is_absolute pat); [done|].
  destruct (existsb _ _); [done|].
  destruct (ends_with_sep pat); [by right|].
  destruct (map Text.text (PurePath.parts pat)) as [|q [|q' l] ]; [by right | | by right].
  destruct (Text.string_eqb q "**").
  { intros [= <-] Hin Hf. by rewrite (elem_of_folders _ _ Hin) in Hf. }
  destruct (Fnmatch.has_magic q); [|by right].
  intros [= <-] Hin Hf. left.
  apply list_elem_of_fmap in Hin as (e & -> & Hin).
  apply list_elem_of_In, List.filter_In in Hin as [Hin _].
  exists e. by rewrite list_elem_of_In.
Qed.

(** A pattern of one component never reaches beyond the listing when it has
    a pattern character. *)
Lemma glob_component cat pat :
  no_slash (Text.chars pat) -> pat <> "" -> pat <> "." ->
  Fnmatch.has_magic pat = true ->
  glob cat pat =
    if Text.str_in "**" pat && negb (Text.string_eqb pat "**")
    then inl (ValueError "Invalid pattern: '**' can only be an entire path component")
    else if Text.string_eqb pat "**" then inr (folders cat)
    else inr (map hit_of (List.filter (fun e => Fnmatch.fnmatch (e_name e) pat) cat)).
Proof.
  intros Hn H1 H2 Hm. unfold glob.
  rewrite (truthy_true _ H1), (no_slash_relative _ Hn), (parts_component _ Hn H1 H2).
  rewrite (ends_with_sep_no_slash _ Hn).
  simpl existsb. rewrite orb_false_r, Hm. done.
Qed.

Lemma step3_pattern name :
  no_slash (Text.chars name) ->
  no_slash (Text.chars (name +:+ "*")) /\ name +:+ "*" <> "" /\ name +:+ "*" <> ".".
Proof.
  intros Hn. split; [|split].
  - rewrite chars_app. apply no_slash_app; [done|].
    apply Forall_singleton. discriminate.
  - intros H. by apply string_app_nil in H as [_ H].
  - intros H. destruct name as [|c [|d name]]; simpl in H; discriminate.
Qed.

(** For an identifier without separator and without pattern characters,
    the pattern of step 3 selects, in listing order, the entries whose
    name starts with the identifier. *)
Lemma glob_plain cat name :
  no_slash (Text.chars name) ->
  Fnmatch.has_magic name = false ->
  glob cat (name +:+ "*") =
    inr (map hit_of
           (List.filter
              (fun e => Text.is_prefix (Text.chars name) (Text.chars (e_name e))) cat)).
Proof.
  intros Hn Hm. destruct (step3_pattern name Hn) as (Hn' & H1 & H2).
  rewrite (glob_component _ _ Hn' H1 H2 (has_magic_star name)).
  assert (Text.str_in "**" (name +:+ "*") = false) as Hs.
  { unfold Text.str_in. rewrite chars_app. by apply contains_two_stars. }
  rewrite Hs. simpl.
  assert (Text.string_eqb (name +:+ "*") "**" = false) as ->.
  { destruct (Text.string_eqb (name +:+ "*") "**") eqn:E; [|done].
    apply string_eqb_true in E. by rewrite E in Hs. }
  f_equal. f_equal. apply List.filter_ext. intros e.
  by apply fnmatch_literal_prefix.
Qed.

Lemma find_outfit_path_dir cat name p :
  find_outfit_path cat name = inr p -> p_dir p = IMG_DIR.
Proof.
  rewrite find_outfit_path_steps.
  destruct (exact_match cat name) as [e|[|]]; [done | by intros [= <-] |].
  destruct (first_existing cat name ext_order) as [e|[q|]] eqn:E2; [done | |].
  { intros [= <-]. by apply first_existing_Some in E2 as (? & ? & ? & _ & _ & _ & ->). }
  destruct (glob cat (name +:+ "*")) as [e|ps]; [done|].
  destruct (first_allowed_file ps) as [q|] eqn:E3; [|done].
  intros [= <-]. by apply first_allowed_file_Some in E3 as (? & ? & ? & _ & _ & _ & _ & ->).
Qed.

(** Step 3 for an identifier without separator and without pattern
    characters, once steps 1 and 2 have found nothing. *)
Lemma find_outfit_path_plain cat name :
  no_slash (Text.chars name) ->
  Fnmatch.has_magic name = false ->
  exact_match cat name = inr false ->
  first_existing cat name ext_order = inr None ->
  find_outfit_path cat name =
    match List.find (fun p => is_file p && allowed_file (e_name p) &&
                       Text.is_prefix (Text.chars name) (Text.chars (e_name p))) cat with
    | Some p => inr (IMG_DIR // e_name p)
    | None => inl (FileNotFoundError ("Outfit not found: " +:+ name))
    end.
Proof.
  intros Hn Hm H1 H2.
  rewrite find_outfit_path_steps, H1, H2, (glob_plain _ _ Hn Hm).
  rewrite first_allowed_file_entries. by destruct (List.find _ cat).
Qed.

(** An identifier that has no allowed extension is no exact match, whatever
    the listing. *)
Lemma exact_match_not_allowed cat name :
  valid_name name = true -> allowed_file name = false ->
  exact_match cat name = inr false.
Proof.
  intros Hv Ha. unfold exact_match. rewrite (exists_in_valid _ _ Hv).
  assert (allowed_file (candidate_name name) = false) as ->;
    [|by rewrite andb_false_r].
  destruct (valid_name_true _ Hv) as (Hn & H1 & H2 & _).
  unfold candidate_name. rewrite (no_slash_relative _ Hn).
  assert (PurePath.name name = name) as ->.
  { unfold PurePath.name.
    pose proof (parts_component name Hn H1 H2) as Hp.
    destruct (PurePath.parts name) as [|c [|d l]]; try discriminate.
    simpl in *. by injection Hp. }
  by destruct name.
Qed.


(** C6. Step 2 joins the identifier with the allowed extensions in the one
    order in which the set is enumerated, and the first joined name that
    exists wins: when several such files exist, the one returned is fixed by
    that order alone. *)
Theorem step2_first_extension_wins :
  forall cat name pre ext post,
    ext_order = pre ++ ext :: post ->
    (forall e, e ∈ pre -> exists_in cat (name +:+ e) = inr false) ->
    exists_in cat (name +:+ ext) = inr true ->
    first_existing cat name ext_order = inr (Some (IMG_DIR // (name +:+ ext))) /\
    (exact_match cat name = inr false ->
     find_outfit_path cat name = inr (IMG_DIR // (name +:+ ext))).
Proof.
  intros cat name pre ext post Hord Hpre Hex.
  assert (first_existing cat name ext_order = inr (Some (IMG_DIR // (name +:+ ext)))) as H.
  { rewrite Hord. by apply first_existing_first. }
  split; [done|]. intros H1. by rewrite find_outfit_path_steps, H1, H.
Qed.

(** Resolution fails with the not-found error when none of the three steps
    finds a file. *)
Lemma plain_identifier_not_found cat name :
  no_slash (Text.chars name) ->
  Fnmatch.has_magic name = false ->
  exact_match cat name = inr false ->
  (forall ext, ext ∈ ext_order -> exists_in cat (name +:+ ext) = inr false) ->
  (forall p, p ∈ cat -> is_file p = true -> allowed_file (e_name p) = true ->
             Text.is_prefix (Text.chars name) (Text.chars (e_name p)) = false) ->
  find_outfit_path cat name = inl (FileNotFoundError ("Outfit not found: " +:+ name)).
Proof.
  intros Hn Hm H1 H2 H3.
  rewrite (find_outfit_path_plain _ _ Hn Hm H1); [|by apply first_existing_None].
  destruct (List.find _ cat) as [p|] eqn:E; [|done].
  apply List.find_some in E as [Hin Hp].
  apply andb_true_iff in Hp as [Hp Hpre]. apply andb_true_iff in Hp as [Hf Ha].
  apply list_elem_of_In in Hin. by rewrite (H3 p Hin Hf Ha) in Hpre.
Qed.

(** ** Request handler *)

Lemma py_or_truthy a b : truthy_opt a = true -> py_or a b = a.
Proof. intros H. unfold py_or. by rewrite H. Qed.

Lemma py_or_falsy a b : truthy_opt a = false -> py_or a b = b.
Proof. intros H. unfold py_or. by rewrite H. Qed.

Lemma api_tryon_no_photo request s :
  multidict_get (files request) "photo" = None ->
  api_tryon request s = (Json 400 [("error", "Missing 'photo' file.")], s).
Proof. intros H. unfold api_tryon, tryon_body. by rewrite H. Qed.

Lemma api_tryon_no_outfit request s photo :
  multidict_get (files request) "photo" = Some photo ->
  truthy_opt (outfit_param request) = false ->
  api_tryon request s = (Json 400 [("error", "Missing 'outfit' parameter.")], s).
Proof. intros H1 H2. unfold api_tryon, tryon_body. by rewrite H1, H2. Qed.

(** The handler past its two checks. *)
Lemma api_tryon_accepted request s photo :
  multidict_get (files request) "photo" = Some photo ->
  truthy_opt (outfit_param request) = true ->
  api_tryon request s =
  let s1 := with_upload s photo in
  let outfit_name := default "" (outfit_param request) in
  let prompt := default "" (py_or (multidict_get (form request) "prompt") (Some "")) in
  match find_outfit_path (img_dir s) outfit_name with
  | inl (FileNotFoundError m) => (Json 404 [("error", m)], s1)
  | inl e => (error_response e, s1)
  | inr outfit_path =>
      match run_gemini_tryon (UPLOADS_DIR // user_photo_name (filename photo))
                             outfit_path prompt s1 with
      | (inr result_path, s2) =>
          (SendFile result_path "image/jpeg" (file_content s2 result_path), s2)
      | (inl e, s2) => (error_response e, s2)
      end
  end.
Proof.
  intros H1 H2. unfold api_tryon, tryon_body. rewrite H1, H2. simpl.
  unfold bind, save_upload, get_fs. simpl. fold (with_upload s photo).
  destruct (find_outfit_path (img_dir s) _) as [[]|outfit_path]; try done.
  destruct (run_gemini_tryon _ _ _ _) as [[e|result_path] s2]; done.
Qed.

Lemma error_response_status e : status_of (error_response e) = 500.
Proof. done. Qed.

Lemma api_tryon_accepted_status request s photo :
  multidict_get (files request) "photo" = Some photo ->
  truthy_opt (outfit_param request) = true ->
  status_of (fst (api_tryon request s)) <> 400.
Proof.
  intros H1 H2. rewrite (api_tryon_accepted _ _ _ H1 H2). simpl.
  destruct (find_outfit_path _ _) as [[]|outfit_path]; simpl; try done.
  destruct (run_gemini_tryon _ _ _ _) as [[e|result_path] s2]; simpl; done.
Qed.

(** C8. The outfit identifier is taken from the form field [outfit], else
    from the form field [outfit_name], else from the query parameter
    [outfit]; a request with an identifier and a photo is not answered with
    400.  With a photo and no identifier from any of the three, the answer
    is 400 with the body [{"error": "Missing 'outfit' parameter."}]; without
    the photo it is 400 as well. *)
Theorem outfit_parameter_sources :
  (forall request v,
     multidict_get (form request) "outfit" = Some v -> Text.truthy v = true ->
     outfit_param request = Some v) /\
  (forall request v,
     truthy_opt (multidict_get (form request) "outfit") = false ->
     multidict_get (form request) "outfit_name" = Some v -> Text.truthy v = true ->
     outfit_param request = Some v) /\
  (forall request v,
     truthy_opt (multidict_get (form request) "outfit") = false ->
     truthy_opt (multidict_get (form request) "outfit_name") = false ->
     multidict_get (args request) "outfit" = Some v -> Text.truthy v = true ->
     outfit_param request = Some v) /\
  (forall request s photo,
     multidict_get (files request) "photo" = Some photo ->
     truthy_opt (outfit_param request) = true ->
     status_of (fst (api_tryon request s)) <> 400) /\
  (forall request s photo,
     multidict_get (files request) "photo" = Some photo ->
     truthy_opt (multidict_get (form request) "outfit") = false ->
     truthy_opt (multidict_get (form request) "outfit_name") = false ->
     truthy_opt (multidict_get (args request) "outfit") = false ->
     api_tryon request s = (Json 400 [("error", "Missing 'outfit' parameter.")], s)) /\
  (forall request s,
     multidict_get (files request) "photo" = None ->
     api_tryon request s = (Json 400 [("error", "Missing 'photo' file.")], s)).
Proof.
  split; [|split; [|split; [|split; [|split]]]].
  - intros request v H Hv. unfold outfit_param. rewrite H.
    rewrite (py_or_truthy (Some v)) by exact Hv.
    apply py_or_truthy. exact Hv.
  - intros request v H1 H2 Hv. unfold outfit_param.
    rewrite (py_or_falsy _ _ H1), H2. apply py_or_truthy. exact Hv.
  - intros request v H1 H2 H3 Hv. unfold outfit_param.
    by rewrite (py_or_falsy _ _ H1), (py_or_falsy _ _ H2).
  - exact api_tryon_accepted_status.
  - intros request s photo Hp H1 H2 H3. apply (api_tryon_no_outfit _ _ photo); [done|].
    unfold outfit_param. by rewrite (py_or_falsy _ _ H1), (py_or_falsy _ _ H2).
  - exact api_tryon_no_photo.
Qed.

Lemma api_tryon_not_found request s photo name :
  multidict_get (files request) "photo" = Some photo ->
  outfit_param request = Some name ->
  Text.truthy name = true ->
  find_outfit_path (img_dir s) name =
    inl (FileNotFoundError ("Outfit not found: " +:+ name)) ->
  api_tryon request s =
    (Json 404 [("error", "Outfit not found: " +:+ name)], with_upload s photo).
Proof.
  intros Hp Ho Ht Hf.
  assert (truthy_opt (outfit_param request) = true) as Hto.
  { rewrite Ho. exact Ht. }
  rewrite (api_tryon_accepted _ _ photo Hp Hto), Ho. simpl.
  by rewrite Hf.
Qed.

Lemma lower_app a b : Text.lower (a +:+ b) = Text.lower a +:+ Text.lower b.
Proof.
  apply chars_inj. unfold Text.lower.
  by rewrite !chars_text, !chars_app, !chars_text, map_app.
Qed.

(** C9. A failure caught by the outer handler is answered with status 500.
    When its text contains [RESOURCE_EXHAUSTED] (in that exact case) or
    contains [quota] in any mix of cases, the message is replaced by the
    fixed quota message; otherwise the message is the error's own text.  In
    both cases it follows the prefix ["Try-on error: "]. *)
Theorem boundary_failures_become_500 :
  (forall request s e s',
     tryon_body request s = (inl e, s') ->
     api_tryon request s =
       (Json 500 [("error", "Try-on error: " +:+
                            (if quota_text (str e) then quota_message else str e))],
        s')) /\
  (forall pre post, quota_text (pre +:+ "RESOURCE_EXHAUSTED" +:+ post) = true) /\
  (forall pre q post,
     Text.lower q = "quota" -> quota_text (pre +:+ q +:+ post) = true) /\
  quota_text "resource_exhausted" = false /\
  (forall e, quota_text (str e) = true ->
             error_response e = Json 500 [("error", "Try-on error: " +:+ quota_message)]) /\
  (forall e, quota_text (str e) = false ->
             error_response e = Json 500 [("error", "Try-on error: " +:+ str e)]).
Proof.
  split; [|split; [|split; [|split; [|split]]]].
  - intros request s e s' H. unfold api_tryon. by rewrite H.
  - intros pre post. unfold quota_text. by rewrite str_in_middle.
  - intros pre q post Hq. unfold quota_text.
    rewrite !lower_app, Hq, str_in_middle. apply orb_true_r.
  - by vm_compute.
  - intros e H. unfold error_response, json_error. by rewrite H.
  - intros e H. unfold error_response, json_error. by rewrite H.
Qed.

(** ** Result materializer *)

Lemma materialize_decoded payload img s :
  Image_open payload = inr img ->
  materialize payload s =
    (inr (OUTPUT_DIR // "tryon_result_gemini.jpg"),
     FS (img_dir s) (uploads s)
        (<["tryon_result_gemini.jpg" := Image_save (convert_RGB img) "JPEG" (Some 95)]>
           (output s))).
Proof. intros H. unfold materialize, bind, open_rgb. by rewrite H. Qed.

Lemma materialize_undecoded payload msg s :
  Image_open payload = inl msg ->
  materialize payload s = (inl (UnidentifiedImageError msg), s).
Proof. intros H. unfold materialize, bind, open_rgb. by rewrite H. Qed.

(** C7. A payload that decodes is converted to RGB, encoded as JPEG at
    quality 95 and written to [OUTPUT_DIR / "tryon_result_gemini.jpg"],
    whatever that file held before and without touching another file; the
    path is returned.  A payload that does not decode raises Pillow's
    error, which is not the no-image [RuntimeError]. *)
Theorem materialize_writes_jpeg :
  (forall payload img s,
     Image_open payload = inr img ->
     let jpeg := Image_save (convert_RGB img) "JPEG" (Some 95) in
     let s' := snd (materialize payload s) in
     fst (materialize payload s) = inr (OUTPUT_DIR // "tryon_result_gemini.jpg") /\
     output s' !! "tryon_result_gemini.jpg" = Some jpeg /\
     (forall other, other <> "tryon_result_gemini.jpg" ->
                    output s' !! other = output s !! other) /\
     uploads s' = uploads s /\ img_dir s' = img_dir s) /\
  (forall payload msg s,
     Image_open payload = inl msg ->
     materialize payload s = (inl (UnidentifiedImageError msg), s) /\
     UnidentifiedImageError msg <> RuntimeError no_image_message) /\
  (forall user_path outfit_path extra s ub ob response payload,
     fst (image_to_png_bytes user_path s) = inr ub ->
     fst (image_to_png_bytes outfit_path s) = inr ob ->
     generate_content GEMINI_MODEL (tryon_contents ub ob extra) = inr response ->
     extract_image_bytes response = inr (Some payload) ->
     run_gemini_tryon user_path outfit_path extra s = materialize payload s).
Proof.
  split; [|split].
  - intros payload img s H. rewrite (materialize_decoded _ _ _ H). simpl.
    split; [done|]. split; [apply lookup_insert_eq|]. split; [|done].
    intros other Hne. by apply lookup_insert_ne.
  - intros payload msg s H. by rewrite (materialize_undecoded _ _ _ H).
  - intros user_path outfit_path extra s ub ob response payload Hu Ho Hg He.
    by rewrite (run_gemini_tryon_after_call _ _ _ _ _ _ _ Hu Ho Hg), He.
Qed.

(** ** Request builder *)

(** C1. The request built for the model is one content whose parts are, in
    this order and with nothing else, the instruction text, the user photo
    as inline PNG data and the garment as inline PNG data; the instruction
    text starts with the fixed prompt.  This is the payload handed to the
    model. *)
Theorem request_parts_in_order :
  (forall user_bytes outfit_bytes extra_prompt,
     tryon_contents user_bytes outfit_bytes extra_prompt =
     [ {| parts := Some
            [ {| text := Some (tryon_prompt extra_prompt); inline_data := None |};
              {| text := None;
                 inline_data :=
                   Some {| mime_type := Some "image/png"; data := Some user_bytes |} |};
              {| text := None;
                 inline_data :=
                   Some {| mime_type := Some "image/png"; data := Some outfit_bytes |} |}
            ] |} ]) /\
  (forall extra_prompt, exists styling, tryon_prompt extra_prompt = base_prompt +:+ styling) /\
  (forall user_path outfit_path extra_prompt s user_bytes outfit_bytes,
     fst (image_to_png_bytes user_path s) = inr user_bytes ->
     fst (image_to_png_bytes outfit_path s) = inr outfit_bytes ->
     run_gemini_tryon user_path outfit_path extra_prompt s =
     match generate_content GEMINI_MODEL
             (tryon_contents user_bytes outfit_bytes extra_prompt) with
     | inl msg => (inl (UpstreamError msg), s)
     | inr response =>
         match extract_image_bytes response with
         | inl e => (inl e, s)
         | inr None => (inl (RuntimeError no_image_message), s)
         | inr (Some image_bytes) => materialize image_bytes s
         end
     end).
Proof.
  split; [done|]. split.
  - intros extra_prompt. unfold tryon_prompt.
    destruct (Text.truthy extra_prompt).
    + by exists (newline +:+ "Extra styling instructions: " +:+ extra_prompt).
    + exists "". apply chars_inj. by rewrite chars_app, app_nil_r.
  - intros user_path outfit_path extra_prompt s ub ob Hu Ho.
    destruct (generate_content GEMINI_MODEL (tryon_contents ub ob extra_prompt))
      as [msg|response] eqn:Hg.
    + unfold run_gemini_tryon, bind.
      rewrite (image_to_png_bytes_ok _ _ _ Hu), (image_to_png_bytes_ok _ _ _ Ho).
      unfold call_model. by rewrite Hg.
    + by apply (run_gemini_tryon_after_call _ _ _ _ ub ob).
Qed.

(** ** Upload *)

Lemma materialize_store payload s :
  img_dir (snd (materialize payload s)) = img_dir s /\
  uploads (snd (materialize payload s)) = uploads s.
Proof.
  destruct (Image_open payload) as [msg|img] eqn:E.
  - by rewrite (materialize_undecoded _ _ _ E).
  - by rewrite (materialize_decoded _ _ _ E).
Qed.

(** [run_gemini_tryon] writes to [OUTPUT_DIR] only. *)
Lemma run_gemini_tryon_store user_path outfit_path extra s :
  img_dir (snd (run_gemini_tryon user_path outfit_path extra s)) = img_dir s /\
  uploads (snd (run_gemini_tryon user_path outfit_path extra s)) = uploads s.
Proof.
  unfold run_gemini_tryon, bind.
  pose proof (image_to_png_bytes_state user_path s) as H1.
  destruct (image_to_png_bytes user_path s) as [[e|ub] s1]; simpl in H1; subst; [done|].
  pose proof (image_to_png_bytes_state outfit_path s) as H2.
  destruct (image_to_png_bytes outfit_path s) as [[e|ob] s2]; simpl in H2; subst; [done|].
  unfold call_model.
  destruct (generate_content _ _) as [msg|response]; simpl; [done|].
  destruct (extract_image_bytes response) as [e|[payload|] ]; [done | | done].
  apply materialize_store.
Qed.

Lemma upload_ext_cases fn :
  upload_ext fn =
  if in_allowed_exts (Text.lower (PurePath.suffix fn))
  then Text.lower (PurePath.suffix fn) else ".jpg".
Proof.
  unfold upload_ext.
  destruct (Text.lower (PurePath.suffix fn)) as [|c ext]; [done|]. simpl.
  by destruct (in_allowed_exts (String c ext)).
Qed.


(** C10. Once the request has a photo and an outfit identifier, the photo is
    saved as [UPLOADS_DIR / "user_photo<ext>"], where [<ext>] is the
    lower-cased suffix of the client's file name when that is an allowed
    extension and [".jpg"] when the suffix is missing or not allowed.  No
    file name makes the handler refuse the upload: whatever the rest of the
    request leads to, the store then holds the photo under that name. *)
Theorem upload_saved_as_user_photo :
  (forall fn,
     upload_ext fn =
     if in_allowed_exts (Text.lower (PurePath.suffix fn))
     then Text.lower (PurePath.suffix fn) else ".jpg") /\
  (forall fn, upload_ext fn ∈ ALLOWED_EXTS) /\
  (forall request s photo,
     multidict_get (files request) "photo" = Some photo ->
     truthy_opt (outfit_param request) = true ->
     uploads (snd (api_tryon request s))
       !! ("user_photo" +:+ upload_ext (filename photo)) = Some (stream photo)).
Proof.
  split; [exact upload_ext_cases|]. split.
  - intros fn. rewrite upload_ext_cases.
    destruct (in_allowed_exts _) eqn:E; [by apply in_allowed_exts_elem|].
    unfold ALLOWED_EXTS. set_solver.
  - intros request s photo Hp Ho. rewrite (api_tryon_accepted _ _ _ Hp Ho). simpl.
    assert (uploads (with_upload s photo)
              !! ("user_photo" +:+ upload_ext (filename photo)) = Some (stream photo))
      as Hsaved by apply lookup_insert_eq.
    destruct (find_outfit_path _ _) as [[]|outfit_path]; simpl; try done.
    pose proof (run_gemini_tryon_store
                  (UPLOADS_DIR // user_photo_name (filename photo)) outfit_path
                  (default "" (py_or (multidict_get (form request) "prompt") (Some "")))
                  (with_upload s photo)) as [_ Hup].
    destruct (run_gemini_tryon _ _ _ _) as [[e|result_path] s2]; simpl in *;
      by rewrite Hup.
Qed.

(** * Further properties of the program *)

(** ** Asset resolver, continued *)

(** X2. Whatever [find_outfit_path] returns is a path joined to [IMG_DIR]
    that exists: the existence test said so, or the path is a file that the
    pattern of step 3 found beyond the listing.  For an identifier without
    separator the search never leaves the listing, and a returned name that
    can name an entry is the name of an entry of the catalog. *)
Theorem resolved_path_exists cat name p :
  find_outfit_path cat name = inr p ->
  p_dir p = IMG_DIR /\
  (exists_in cat (p_name p) = inr true \/
   exists hits h, glob_beyond (name +:+ "*") = inr hits /\ h ∈ hits /\
                  h_is_file h = true /\ p_name p = h_name h) /\
  (no_slash (Text.chars name) ->
   exists_in cat (p_name p) = inr true /\
   (valid_name (p_name p) = true -> exists e, e ∈ cat /\ e_name e = p_name p)).
Proof.
  intros Hfind. split; [by eapply find_outfit_path_dir|].
  assert (exists_in cat (p_name p) = inr true \/
          exists ps h, glob cat (name +:+ "*") = inr ps /\ h ∈ ps /\
                       h_is_file h = true /\ p_name p = h_name h) as Hcases.
  { revert Hfind. rewrite find_outfit_path_steps. unfold exact_match.
    destruct (exists_in cat name) as [e|found] eqn:E1; [done|].
    destruct (found && allowed_file (candidate_name name)) eqn:E1'.
    { intros [= <-]. left. by apply andb_true_iff in E1' as [-> _]. }
    destruct (first_existing cat name ext_order) as [e|[q|]] eqn:E2; [done | |].
    { intros [= <-]. left.
      by apply first_existing_Some in E2 as (pre & ext & post & _ & _ & Hex & ->). }
    destruct (glob cat (name +:+ "*")) as [e|ps] eqn:E3; [done|].
    destruct (first_allowed_file ps) as [q|] eqn:E4; [|done].
    intros [= <-]. right.
    apply first_allowed_file_Some in E4 as (pre & h & post & -> & _ & Hf & _ & ->).
    exists (pre ++ h :: post), h. split; [done|]. split; [|done].
    apply elem_of_app. right. by left. }
  split.
  - destruct Hcases as [H|(ps & h & Hg & Hin & Hf & Hp)]; [by left|].
    destruct (glob_file_hit _ _ _ _ Hg Hin Hf) as [(e & He & Hfe & Hn)|Hb].
    + left. rewrite Hp, Hn. apply exists_in_entry; [done|].
      unfold is_file in Hfe. by apply andb_true_iff in Hfe as [-> _].
    + right. by exists ps, h.
  - intros Hn.
    assert (exists_in cat (p_name p) = inr true) as Hex.
    { destruct Hcases as [H|(ps & h & Hg & Hin & Hf & Hp)]; [done|].
      destruct (step3_pattern name Hn) as (Hn' & H1 & H2).
      rewrite (glob_component _ _ Hn' H1 H2 (has_magic_star name)) in Hg.
      destruct (_ && _); [done|].
      destruct (Text.string_eqb _ _).
      - injection Hg as <-. by rewrite (elem_of_folders _ _ Hin) in Hf.
      - injection Hg as <-.
        apply list_elem_of_fmap in Hin as (e & -> & Hin).
        apply list_elem_of_In, List.filter_In in Hin as [Hin _].
        rewrite Hp. simpl. apply exists_in_entry; [by apply list_elem_of_In|].
        simpl in Hf. unfold is_file in Hf. by apply andb_true_iff in Hf as [-> _]. }
    split; [done|]. intros Hv. by apply (exists_in_true _ _ Hv).
Qed.

(** X3. The failures of [find_outfit_path]: the [FileNotFoundError] naming
    the identifier, the two errors with which [glob] refuses a pattern, and
    whatever an existence test or a pattern beyond the listing raises.  An
    absolute identifier that steps 1 and 2 do not find ends in the
    [NotImplementedError]; the identifier [**] ends in the [ValueError]
    unless the catalog has [**] followed by an extension.  For an identifier
    without separator and pattern characters whose existence tests do not
    raise, the not-found error occurs exactly when the exact name is missing
    or has no allowed extension, no identifier-plus-extension name exists,
    and no file with an allowed extension has a name starting with the
    identifier. *)
Theorem not_found_iff cat name :
  (forall e, find_outfit_path cat name = inl e ->
     e = FileNotFoundError ("Outfit not found: " +:+ name) \/
     e = NotImplementedError "Non-relative patterns are unsupported" \/
     e = ValueError "Invalid pattern: '**' can only be an entire path component" \/
     exists_in cat name = inl e \/
     (exists ext, ext ∈ ext_order /\ exists_in cat (name +:+ ext) = inl e) \/
     glob_beyond (name +:+ "*") = inl e) /\
  (is_absolute name = true ->
   exact_match cat name = inr false ->
   (forall ext, ext ∈ ext_order -> exists_in cat (name +:+ ext) = inr false) ->
   find_outfit_path cat name =
     inl (NotImplementedError "Non-relative patterns are unsupported")) /\
  (name = "**" ->
   (forall ext, ext ∈ ext_order -> exists_in cat (name +:+ ext) = inr false) ->
   find_outfit_path cat name =
     inl (ValueError "Invalid pattern: '**' can only be an entire path component")) /\
  (no_slash (Text.chars name) ->
   Fnmatch.has_magic name = false ->
   (exists b, exact_match cat name = inr b) ->
   (forall ext, ext ∈ ext_order -> exists b, exists_in cat (name +:+ ext) = inr b) ->
   (find_outfit_path cat name = inl (FileNotFoundError ("Outfit not found: " +:+ name)) <->
    exact_match cat name = inr false /\
    (forall ext, ext ∈ ext_order -> exists_in cat (name +:+ ext) = inr false) /\
    (forall p, p ∈ cat -> is_file p = true -> allowed_file (e_name p) = true ->
               Text.is_prefix (Text.chars name) (Text.chars (e_name p)) = false))).
Proof.
  split; [|split; [|split]].
  - intros e. rewrite find_outfit_path_steps. unfold exact_match.
    destruct (exists_in cat name) as [e1|found] eqn:E1.
    { intros [= <-]. by right; right; right; left. }
    destruct (found && allowed_file (candidate_name name)); [done|].
    destruct (first_existing cat name ext_order) as [e2|[q|]] eqn:E2.
    { intros [= <-]. right; right; right; right; left.
      by apply first_existing_error. }
    { done. }
    unfold glob. rewrite (truthy_true (name +:+ "*")).
    2:{ intros H. by apply string_app_nil in H as [_ H]. }
    cbn [negb]. destruct (is_absolute (name +:+ "*")).
    { intros [= <-]. by right; left. }
    destruct (existsb _ _).
    { intros [= <-]. by right; right; left. }
    assert (forall r : exn + list hit,
              match r with
              | inl e0 => inl e0
              | inr ps =>
                  match first_allowed_file ps with
                  | Some p => inr p
                  | None => inl (FileNotFoundError ("Outfit not found: " +:+ name))
                  end
              end = (inl e : exn + path) ->
              e = FileNotFoundError ("Outfit not found: " +:+ name) \/ r = inl e) as Hr.
    { intros [e0|ps]; [intros [= <-]; by right|].
      destruct (first_allowed_file ps); [done|]. intros [= <-]. by left. }
    destruct (ends_with_sep (name +:+ "*")).
    { intros H. apply Hr in H as [H|H]; [by left | by do 5 right]. }
    destruct (map Text.text (PurePath.parts (name +:+ "*"))) as [|q [|q' l] ].
    + intros H. apply Hr in H as [H|H]; [by left | by do 5 right].
    + destruct (Text.string_eqb q "**").
      { intros H. apply (Hr (inr _)) in H as [H|H]; [by left | done]. }
      destruct (Fnmatch.has_magic q).
      { intros H. apply (Hr (inr _)) in H as [H|H]; [by left | done]. }
      intros H. apply Hr in H as [H|H]; [by left | by do 5 right].
    + intros H. apply Hr in H as [H|H]; [by left | by do 5 right].
  - intros Ha H1 H2. rewrite find_outfit_path_steps, H1.
    apply first_existing_None in H2. rewrite H2.
    unfold glob. rewrite (truthy_true (name +:+ "*")).
    2:{ intros H. by apply string_app_nil in H as [_ H]. }
    cbn [negb].
    assert (is_absolute (name +:+ "*") = true) as ->; [|done].
    by destruct name.
  - intros -> H2.
    rewrite find_outfit_path_steps, (exact_match_not_allowed cat "**") by done.
    apply first_existing_None in H2. by rewrite H2.
  - intros Hn Hm [b1 H1] H2. split.
    + intros Hfind.
      assert (exact_match cat name = inr false) as H1'.
      { rewrite find_outfit_path_steps, H1 in Hfind. by destruct b1. }
      assert (first_existing cat name ext_order = inr None) as H2'.
      { rewrite find_outfit_path_steps, H1' in Hfind.
        destruct (first_existing cat name ext_order) as [e|[q|]] eqn:E; [|done|done].
        apply first_existing_error in E as (ext & Hin & Hex).
        destruct (H2 ext Hin) as [b Hb]. by rewrite Hb in Hex. }
      split; [done|]. split; [by apply first_existing_None|].
      intros p Hp Hf Ha.
      rewrite (find_outfit_path_plain _ _ Hn Hm H1' H2') in Hfind.
      destruct (List.find _ cat) as [q|] eqn:E; [done|].
      apply list_elem_of_In in Hp.
      pose proof (List.find_none _ _ E p Hp) as H. simpl in H.
      by rewrite Hf, Ha in H.
    + intros (H1' & H2' & H3). by apply plain_identifier_not_found.
Qed.

(** X4. For an identifier without pattern characters, step 3 is a prefix
    search in listing order: once steps 1 and 2 find nothing, the first
    entry that is a file with an allowed extension and whose name starts
    with the identifier is returned. *)
Theorem plain_identifier_prefix_search cat name pre p post :
  Fnmatch.has_magic name = false ->
  exact_match cat name = inr false ->
  (forall ext, ext ∈ ext_order -> exists_in cat (name +:+ ext) = inr false) ->
  cat = pre ++ p :: post ->
  is_file p = true -> allowed_file (e_name p) = true ->
  Text.is_prefix (Text.chars name) (Text.chars (e_name p)) = true ->
  (forall q, q ∈ pre ->
     is_file q && allowed_file (e_name q) &&
     Text.is_prefix (Text.chars name) (Text.chars (e_name q)) = false) ->
  find_outfit_path cat name = inr (IMG_DIR // e_name p).
Proof.
  intros Hm H1 H2 -> Hf Ha Hp Hpre.
  assert (no_slash (Text.chars name)) as Hn.
  { unfold is_file in Hf. apply andb_true_iff in Hf as [Hv _].
    destruct (valid_name_true _ Hv) as (Hns & _).
    apply is_prefix_true in Hp as [t Ht]. unfold no_slash in *.
    rewrite Ht in Hns. by apply Forall_app in Hns as [Hns _]. }
  rewrite (find_outfit_path_plain _ _ Hn Hm H1); [|by apply first_existing_None].
  assert (List.find (fun q => is_file q && allowed_file (e_name q) &&
                       Text.is_prefix (Text.chars name) (Text.chars (e_name q)))
            (pre ++ p :: post) = Some p) as ->; [|done].
  clear H1 H2. induction pre as [|q pre IH]; simpl.
  - by rewrite Hf, Ha, Hp.
  - rewrite (Hpre q) by (by left). apply IH. intros q' Hq'. apply Hpre. by right.
Qed.

(** X5. When the identifier followed by some enumerated extension names an
    existing entry and no existence test raises, resolution succeeds, with
    the exact name or with the identifier followed by an enumerated
    extension. *)
Theorem stem_with_extension_resolves cat name ext :
  (exists b, exists_in cat name = inr b) ->
  (forall ext', ext' ∈ ext_order -> exists b, exists_in cat (name +:+ ext') = inr b) ->
  ext ∈ ext_order ->
  exists_in cat (name +:+ ext) = inr true ->
  exists p, find_outfit_path cat name = inr p /\
    (p = IMG_DIR // name \/
     exists ext', ext' ∈ ext_order /\ p = IMG_DIR // (name +:+ ext') /\
                  exists_in cat (name +:+ ext') = inr true).
Proof.
  intros [b1 H1] H2 Hin Hex. rewrite find_outfit_path_steps.
  unfold exact_match. rewrite H1.
  destruct (b1 && allowed_file (candidate_name name)).
  { exists (IMG_DIR // name). split; [done | by left]. }
  destruct (first_existing cat name ext_order) as [e|[q|]] eqn:E.
  - apply first_existing_error in E as (ext' & Hin' & Hex').
    destruct (H2 ext' Hin') as [b Hb]. by rewrite Hb in Hex'.
  - exists q. split; [done|]. right.
    apply first_existing_Some in E as (pre & ext' & post & Hord & _ & Hex' & ->).
    exists ext'. split; [|done]. rewrite Hord. apply elem_of_app. right. by left.
  - rewrite first_existing_None in E. by rewrite (E ext Hin) in Hex.
Qed.

(** ** Outfit listing *)

Lemma elem_of_outfit_names cat n :
  n ∈ outfit_names cat <->
  exists e, e ∈ cat /\ e_name e = n /\ is_file e = true /\ allowed_file n = true.
Proof.
  unfold outfit_names. rewrite list_elem_of_fmap. split.
  - intros (e & -> & Hin). apply list_elem_of_In, List.filter_In in Hin as [Hin Hb].
    apply andb_true_iff in Hb as [Hf Ha].
    exists e. by rewrite list_elem_of_In.
  - intros (e & Hin & <- & Hf & Ha). exists e. split; [done|].
    apply list_elem_of_In, List.filter_In. rewrite <- list_elem_of_In.
    by rewrite Hf, Ha.
Qed.

(** X6. [list_outfits] returns the names of the catalog's regular files with
    an allowed extension, each as often as it is listed, in ascending
    order; it is the only ascending arrangement of those names.  A missing
    folder gives the empty list. *)
Theorem list_outfits_sorted_files :
  list_outfits None = [] /\
  (forall cat,
     Sorted String.le (list_outfits (Some cat)) /\
     list_outfits (Some cat) ≡ₚ outfit_names cat /\
     (forall n, n ∈ list_outfits (Some cat) <->
                exists e, e ∈ cat /\ e_name e = n /\ is_file e = true /\
                          allowed_file n = true) /\
     (forall l, Sorted String.le l -> l ≡ₚ outfit_names cat ->
                l = list_outfits (Some cat))).
Proof.
  split; [done|]. intros cat. simpl.
  split; [apply (Sorted_merge_sort String.le)|].
  split; [apply merge_sort_Permutation|]. split.
  - intros n. rewrite merge_sort_Permutation. apply elem_of_outfit_names.
  - intros l Hs Hp. apply (Sorted_unique String.le); [done | |].
    + apply (Sorted_merge_sort String.le).
    + by rewrite merge_sort_Permutation.
Qed.

(** X7. Every name that [list_outfits] offers resolves to the catalog file of
    exactly that name. *)
Theorem listed_outfit_resolves cat n :
  n ∈ list_outfits (Some cat) ->
  find_outfit_path cat n = inr (IMG_DIR // n).
Proof.
  simpl. rewrite merge_sort_Permutation, elem_of_outfit_names.
  intros (e & Hin & Hn & Hf & Ha).
  rewrite find_outfit_path_steps. unfold exact_match.
  assert (exists_in cat n = inr true) as ->.
  { rewrite <- Hn. apply exists_in_entry; [done|].
    unfold is_file in Hf. by apply andb_true_iff in Hf as [-> _]. }
  by rewrite (allowed_candidate_name n Ha).
Qed.
(** ** Response extractor, continued *)

Lemma elem_of_candidate_payloads cand d :
  d ∈ candidate_payloads cand ->
  exists c ps part inline,
    content cand = Some c /\ parts c = Some ps /\ part ∈ ps /\
    inline_data part = Some inline /\ data inline = Some d /\ d <> [].
Proof.
  unfold candidate_payloads. destruct (content cand) as [c|]; [|by intros ?%elem_of_nil].
  destruct (parts c) as [ps|] eqn:Hps; [|by intros ?%elem_of_nil]. simpl.
  rewrite list_elem_of_omap. intros (part & Hin & Hp).
  pose proof (payload_of_nonempty _ _ Hp) as Hne.
  unfold payload_of in Hp.
  destruct (inline_data part) as [inline|] eqn:E1; [|done].
  destruct (data inline) as [d'|] eqn:E2; [|done].
  destruct (nonempty d'); [|done]. injection Hp as ->.
  exists c, ps, part, inline. repeat split; try done. by intros ->.
Qed.

(** What the scan returns was assigned before or is a payload of one of the
    candidates. *)
Lemma scan_candidates_elem cs acc d :
  scan_candidates cs acc = inr (Some d) ->
  acc = Some d \/ d ∈ concat (map candidate_payloads cs).
Proof.
  revert acc. induction cs as [|cand cs IH]; intros acc; simpl.
  - intros [= ->]. by left.
  - unfold candidate_payloads at 1.
    destruct (content cand) as [c|]; [|apply IH].
    destruct (parts c) as [ps|]; [|done]. simpl.
    rewrite scan_parts_head.
    destruct (omap payload_of ps) as [|d' l] eqn:E; simpl.
    + destruct (truthy_bytes acc); [intros [= ->]; by left | apply IH].
    + assert (nonempty d' = true) as ->.
      { apply (head_omap_nonempty ps). by rewrite E. }
      intros [= ->]. right. by left.
Qed.

(** X8. What the extractor returns is never empty, and it is the inline
    data of a part of the content of one of the response's candidates. *)
Theorem extracted_payload_is_inline_data response d :
  extract_image_bytes response = inr (Some d) ->
  d <> [] /\
  exists r cs cand c ps part inline,
    response = Some r /\ candidates r = Some cs /\ cand ∈ cs /\
    content cand = Some c /\ parts c = Some ps /\ part ∈ ps /\
    inline_data part = Some inline /\ data inline = Some d.
Proof.
  destruct response as [r|]; [|done]. simpl.
  destruct (candidates r) as [cs|] eqn:Hcs; [|done].
  destruct (nonempty cs); [|done]. intros H.
  apply scan_candidates_elem in H as [H|Hin]; [done|].
  apply list_elem_of_In, in_concat in Hin as (l & Hl & Hd).
  apply list_elem_of_In in Hd.
  apply list_elem_of_In, list_elem_of_fmap in Hl as (cand & -> & Hcand).
  apply elem_of_candidate_payloads in Hd
    as (c & ps & part & inline & H1 & H2 & H3 & H4 & H5 & H6).
  split; [done|]. by exists r, cs, cand, c, ps, part, inline.
Qed.

(** ** The try-on run *)

Lemma run_gemini_tryon_effect user_path outfit_path extra s :
  match run_gemini_tryon user_path outfit_path extra s with
  | (inl e, s') => s' = s
  | (inr p, s') =>
      p = OUTPUT_DIR // "tryon_result_gemini.jpg" /\
      exists payload img,
        Image_open payload = inr img /\
        s' = FS (img_dir s) (uploads s)
               (<["tryon_result_gemini.jpg" :=
                    Image_save (convert_RGB img) "JPEG" (Some 95)]> (output s))
  end.
Proof.
  unfold run_gemini_tryon, bind.
  pose proof (image_to_png_bytes_state user_path s) as H1.
  destruct (image_to_png_bytes user_path s) as [[e|ub] s1]; simpl in H1; subst; [done|].
  pose proof (image_to_png_bytes_state outfit_path s) as H2.
  destruct (image_to_png_bytes outfit_path s) as [[e|ob] s2]; simpl in H2; subst; [done|].
  unfold call_model.
  destruct (generate_content _ _) as [msg|response]; simpl; [done|].
  destruct (extract_image_bytes response) as [e|[payload|] ]; [done | | done].
  destruct (Image_open payload) as [msg|img] eqn:E.
  - by rewrite (materialize_undecoded _ _ _ E).
  - rewrite (materialize_decoded _ _ _ E). split; [done|]. by exists payload, img.
Qed.

(** X9. A run that raises leaves the store exactly as it was, so an earlier
    result stays in place.  A run that returns gives the one fixed output
    path, and differs from the store it started with only in that file,
    which then holds the JPEG encoding of an image Pillow decoded. *)
Theorem run_writes_only_on_success user_path outfit_path extra s :
  match run_gemini_tryon user_path outfit_path extra s with
  | (inl e, s') => s' = s
  | (inr p, s') =>
      p = OUTPUT_DIR // "tryon_result_gemini.jpg" /\
      img_dir s' = img_dir s /\ uploads s' = uploads s /\
      (forall other, other <> "tryon_result_gemini.jpg" ->
                     output s' !! other = output s !! other) /\
      exists payload img,
        Image_open payload = inr img /\
        output s' !! "tryon_result_gemini.jpg" =
          Some (Image_save (convert_RGB img) "JPEG" (Some 95))
  end.
Proof.
  pose proof (run_gemini_tryon_effect user_path outfit_path extra s) as H.
  destruct (run_gemini_tryon user_path outfit_path extra s) as [[e|p] s']; [done|].
  destruct H as (-> & payload & img & Hopen & ->). simpl.
  split; [done|]. split; [done|]. split; [done|]. split.
  - intros other Hne. by apply lookup_insert_ne.
  - exists payload, img. split; [done|]. apply lookup_insert_eq.
Qed.

Lemma image_to_png_bytes_undecodable p s raw msg :
  fst (read_bytes p s) = inr raw ->
  Image_open raw = inl msg ->
  image_to_png_bytes p s = (inl (UnidentifiedImageError msg), s).
Proof.
  intros Hr Ho. unfold image_to_png_bytes, bind.
  pose proof (read_bytes_state p s) as Hs.
  destruct (read_bytes p s) as [r s1]. simpl in *. subst.
  unfold open_rgb. by rewrite Ho.
Qed.

(** X10. A user photo that Pillow cannot open ends the run with Pillow's
    error and an untouched store, whatever the garment is and whatever the
    model would answer; so does a garment that cannot be opened, once the
    user photo has been normalized. *)
Theorem undecodable_image_stops_run user_path outfit_path extra s raw msg :
  Image_open raw = inl msg ->
  (fst (read_bytes user_path s) = inr raw ->
   run_gemini_tryon user_path outfit_path extra s =
     (inl (UnidentifiedImageError msg), s)) /\
  (forall user_bytes,
     fst (image_to_png_bytes user_path s) = inr user_bytes ->
     fst (read_bytes outfit_path s) = inr raw ->
     run_gemini_tryon user_path outfit_path extra s =
       (inl (UnidentifiedImageError msg), s)).
Proof.
  intros Ho. split.
  - intros Hr. unfold run_gemini_tryon, bind.
    by rewrite (image_to_png_bytes_undecodable _ _ _ _ Hr Ho).
  - intros ub Hu Hr. unfold run_gemini_tryon, bind.
    rewrite (image_to_png_bytes_ok _ _ _ Hu).
    by rewrite (image_to_png_bytes_undecodable _ _ _ _ Hr Ho).
Qed.

(** ** Request handler, continued *)

Lemma string_app_assoc a b c : (a +:+ b) +:+ c = a +:+ (b +:+ c).
Proof. apply chars_inj. by rewrite !chars_app, app_assoc. Qed.

Lemma quota_text_no_image_message : quota_text no_image_message = true.
Proof using Type.
  unfold quota_text, no_image_message.
  set (pre := "Gemini did not return an image. " +:+ "Model used: " +:+ GEMINI_MODEL +:+
              ". Check the model ID in AI Studio " +:+ "and your project ").
  assert ("Gemini did not return an image. " +:+ "Model used: " +:+ GEMINI_MODEL +:+
          ". Check the model ID in AI Studio " +:+ "and your project quota." =
          pre +:+ "quota" +:+ ".") as ->.
  { unfold pre. by rewrite !string_app_assoc. }
  rewrite !lower_app.
  change (Text.lower "quota") with "quota".
  rewrite str_in_middle. apply orb_true_r.
Qed.

(** The handler once the outfit is resolved. *)
Lemma api_tryon_resolved request s photo outfit_path :
  multidict_get (files request) "photo" = Some photo ->
  truthy_opt (outfit_param request) = true ->
  find_outfit_path (img_dir s) (default "" (outfit_param request)) = inr outfit_path ->
  api_tryon request s =
  match run_gemini_tryon (UPLOADS_DIR // user_photo_name (filename photo)) outfit_path
          (default "" (py_or (multidict_get (form request) "prompt") (Some "")))
          (with_upload s photo) with
  | (inr result_path, s2) =>
      (SendFile result_path "image/jpeg" (file_content s2 result_path), s2)
  | (inl e, s2) => (error_response e, s2)
  end.
Proof.
  intros Hp Ho Hf. rewrite (api_tryon_accepted _ _ _ Hp Ho). simpl. by rewrite Hf.
Qed.

(** X11. The message of the no-image error contains the word [quota], so the
    outer handler replaces it: when the model answers with a response whose
    contents all have a list of parts and none of them carries a payload,
    the client receives the quota message, not the message that names the
    model. *)
Theorem no_image_answered_as_quota :
  quota_text no_image_message = true /\
  (forall request s photo outfit_path user_bytes outfit_bytes response,
     multidict_get (files request) "photo" = Some photo ->
     truthy_opt (outfit_param request) = true ->
     find_outfit_path (img_dir s) (default "" (outfit_param request)) = inr outfit_path ->
     fst (image_to_png_bytes (UPLOADS_DIR // user_photo_name (filename photo))
            (with_upload s photo)) = inr user_bytes ->
     fst (image_to_png_bytes outfit_path (with_upload s photo)) = inr outfit_bytes ->
     generate_content GEMINI_MODEL
       (tryon_contents user_bytes outfit_bytes
          (default "" (py_or (multidict_get (form request) "prompt") (Some ""))))
       = inr response ->
     response_iterable response ->
     payloads_in_order response = [] ->
     api_tryon request s =
       (Json 500 [("error", "Try-on error: " +:+ quota_message)], with_upload s photo)).
Proof.
  split; [exact quota_text_no_image_message|].
  intros request s photo outfit_path ub ob response Hp Ho Hf Hu Hg Hm Hit Hnone.
  rewrite (api_tryon_resolved _ _ _ _ Hp Ho Hf).
  rewrite (run_gemini_tryon_after_call _ _ _ _ _ _ _ Hu Hg Hm).
  rewrite (extract_head _ Hit), Hnone. simpl.
  unfold error_response, json_error. simpl. by rewrite quota_text_no_image_message.
Qed.

(** X12. With a photo, an identifier that resolves, two images Pillow can
    normalize and a model answer carrying a payload Pillow can decode, the
    endpoint answers 200 with the JPEG as [image/jpeg]; the store then holds
    the upload and the result. *)
Theorem tryon_success
    request s photo outfit_path user_bytes outfit_bytes response payload img :
  multidict_get (files request) "photo" = Some photo ->
  truthy_opt (outfit_param request) = true ->
  find_outfit_path (img_dir s) (default "" (outfit_param request)) = inr outfit_path ->
  fst (image_to_png_bytes (UPLOADS_DIR // user_photo_name (filename photo))
         (with_upload s photo)) = inr user_bytes ->
  fst (image_to_png_bytes outfit_path (with_upload s photo)) = inr outfit_bytes ->
  generate_content GEMINI_MODEL
    (tryon_contents user_bytes outfit_bytes
       (default "" (py_or (multidict_get (form request) "prompt") (Some ""))))
    = inr response ->
  extract_image_bytes response = inr (Some payload) ->
  Image_open payload = inr img ->
  let jpeg := Image_save (convert_RGB img) "JPEG" (Some 95) in
  api_tryon request s =
    (SendFile (OUTPUT_DIR // "tryon_result_gemini.jpg") "image/jpeg" (Some jpeg),
     FS (img_dir s)
        (<[user_photo_name (filename photo) := stream photo]> (uploads s))
        (<["tryon_result_gemini.jpg" := jpeg]> (output s))).
Proof.
  intros Hp Ho Hf Hu Hg Hm He Hd. simpl.
  rewrite (api_tryon_resolved _ _ _ _ Hp Ho Hf).
  rewrite (run_gemini_tryon_after_call _ _ _ _ _ _ _ Hu Hg Hm), He.
  rewrite (materialize_decoded _ _ _ Hd). unfold file_content. simpl.
  by rewrite lookup_insert_eq.
Qed.

(** X13. Whatever the request, the handler leaves the catalog as it is and
    answers 200, 400, 404 or 500.  A 400 leaves the whole store untouched;
    any answer other than 200 leaves the output folder untouched; a 200
    sends the fixed result file, which the store then holds. *)
Theorem api_tryon_invariants request s :
  let r := fst (api_tryon request s) in
  let s' := snd (api_tryon request s) in
  img_dir s' = img_dir s /\
  (status_of r = 200 \/ status_of r = 400 \/ status_of r = 404 \/ status_of r = 500) /\
  (status_of r = 400 -> s' = s) /\
  (status_of r <> 200 -> output s' = output s) /\
  (status_of r = 200 ->
   exists jpeg,
     r = SendFile (OUTPUT_DIR // "tryon_result_gemini.jpg") "image/jpeg" (Some jpeg) /\
     output s' !! "tryon_result_gemini.jpg" = Some jpeg).
Proof.
  simpl.
  destruct (multidict_get (files request) "photo") as [photo|] eqn:Hp.
  2:{ rewrite (api_tryon_no_photo _ _ Hp). simpl. repeat split; auto; done. }
  destruct (truthy_opt (outfit_param request)) eqn:Ho.
  2:{ rewrite (api_tryon_no_outfit _ _ _ Hp Ho). simpl. repeat split; auto; done. }
  rewrite (api_tryon_accepted _ _ _ Hp Ho). simpl.
  destruct (find_outfit_path _ _) as [e|outfit_path].
  { destruct e; simpl; repeat split; auto; done. }
  pose proof (run_gemini_tryon_effect
                (UPLOADS_DIR // user_photo_name (filename photo)) outfit_path
                (default "" (py_or (multidict_get (form request) "prompt") (Some "")))
                (with_upload s photo)) as H.
  destruct (run_gemini_tryon _ _ _ _) as [[e|p] s2].
  - subst s2. simpl. repeat split; auto; done.
  - destruct H as (-> & payload & img & Hopen & ->). simpl.
    split; [done|]. split; [by left|]. split; [done|]. split; [done|].
    intros _. unfold file_content. simpl. rewrite lookup_insert_eq. eauto.
Qed.

(** X14. The answer is 404 exactly when the request has a photo and an
    identifier and resolution raises a [FileNotFoundError]; the body then is
    the text of that error, and the upload has already been saved.  For the
    resolver's own error the body names the identifier. *)
Theorem not_found_response_iff request s :
  (status_of (fst (api_tryon request s)) = 404 <->
   exists photo name msg,
     multidict_get (files request) "photo" = Some photo /\
     outfit_param request = Some name /\ Text.truthy name = true /\
     find_outfit_path (img_dir s) name = inl (FileNotFoundError msg)) /\
  (forall photo name msg,
     multidict_get (files request) "photo" = Some photo ->
     outfit_param request = Some name -> Text.truthy name = true ->
     find_outfit_path (img_dir s) name = inl (FileNotFoundError msg) ->
     api_tryon request s = (Json 404 [("error", msg)], with_upload s photo)) /\
  (forall photo name,
     multidict_get (files request) "photo" = Some photo ->
     outfit_param request = Some name -> Text.truthy name = true ->
     find_outfit_path (img_dir s) name =
       inl (FileNotFoundError ("Outfit not found: " +:+ name)) ->
     api_tryon request s =
       (Json 404 [("error", "Outfit not found: " +:+ name)], with_upload s photo)).
Proof.
  assert (forall photo name msg,
            multidict_get (files request) "photo" = Some photo ->
            outfit_param request = Some name -> Text.truthy name = true ->
            find_outfit_path (img_dir s) name = inl (FileNotFoundError msg) ->
            api_tryon request s = (Json 404 [("error", msg)], with_upload s photo))
    as Hbody.
  { intros photo name msg Hp Hn Ht Hf.
    assert (truthy_opt (outfit_param request) = true) as Ho by (by rewrite Hn).
    rewrite (api_tryon_accepted _ _ _ Hp Ho), Hn. simpl. by rewrite Hf. }
  split; [|split; [exact Hbody|]].
  - split.
    + destruct (multidict_get (files request) "photo") as [photo|] eqn:Hp.
      2:{ by rewrite (api_tryon_no_photo _ _ Hp). }
      destruct (truthy_opt (outfit_param request)) eqn:Ho.
      2:{ by rewrite (api_tryon_no_outfit _ _ _ Hp Ho). }
      destruct (outfit_param request) as [name|] eqn:Hn; [|done]. simpl in Ho.
      assert (truthy_opt (outfit_param request) = true) as Ho' by (by rewrite Hn).
      rewrite (api_tryon_accepted _ _ _ Hp Ho'), Hn. simpl.
      destruct (find_outfit_path (img_dir s) name) as [e|outfit_path] eqn:Hf.
      * destruct e; try done. intros _. by exists photo, name, msg.
      * destruct (run_gemini_tryon _ _ _ _) as [[e|p] s2]; done.
    + intros (photo & name & msg & Hp & Hn & Ht & Hf).
      by rewrite (Hbody photo name msg Hp Hn Ht Hf).
  - intros photo name Hp Hn Ht Hf. by apply (Hbody photo name _ Hp Hn Ht Hf).
Qed.

(** X15. Steps 1 and 2 of the resolver test existence, not file-ness: when
    the resolved catalog entry is a directory, the run cannot read it and
    the endpoint answers 500, with the output folder untouched. *)
Theorem directory_entry_gives_500 request s photo outfit_path n :
  multidict_get (files request) "photo" = Some photo ->
  truthy_opt (outfit_param request) = true ->
  find_outfit_path (img_dir s) (default "" (outfit_param request)) = inr outfit_path ->
  lookup_entry (img_dir s) (p_name outfit_path) = Some (Entry n Directory) ->
  status_of (fst (api_tryon request s)) = 500 /\
  output (snd (api_tryon request s)) = output s.
Proof.
  intros Hp Ho Hf Hd.
  pose proof (find_outfit_path_dir _ _ _ Hf) as Hdir.
  rewrite (api_tryon_resolved _ _ _ _ Hp Ho Hf).
  unfold run_gemini_tryon, bind.
  pose proof (image_to_png_bytes_state
                (UPLOADS_DIR // user_photo_name (filename photo)) (with_upload s photo)) as H1.
  destruct (image_to_png_bytes (UPLOADS_DIR // _) _) as [[e|ub] s1];
    simpl in H1; subst; [done|].
  assert (image_to_png_bytes outfit_path (with_upload s photo) =
          (inl (IsADirectoryError ("Is a directory: " +:+ p_name outfit_path)),
           with_upload s photo)) as ->; [|done].
  pose proof (lookup_entry_Some _ _ _ Hd) as (_ & _ & Hv).
  unfold image_to_png_bytes, bind, read_bytes.
  rewrite Hdir, (locate_valid _ Hv). simpl. by rewrite Hd.
Qed.


End Program.

(** * The properties at sample inputs *)


Lemma step2_first_extension_wins_witness :
  find_outfit_path Sample.source_order Sample.nothing_beyond Sample.no_hits
    Sample.no_subfolders Sample.two_ext_catalog "coat" =
    inr (IMG_DIR // "coat.png") /\
  find_outfit_path Sample.other_order Sample.nothing_beyond Sample.no_hits
    Sample.no_subfolders Sample.two_ext_catalog "coat" =
    inr (IMG_DIR // "coat.webp").
Proof.
  split.
  - apply (step2_first_extension_wins Sample.source_order Sample.nothing_beyond
             Sample.no_hits Sample.no_subfolders Sample.two_ext_catalog
             "coat" [".jpg"; ".jpeg"] ".png" [".webp"]); try reflexivity.
    intros e He. apply elem_of_cons in He as [-> | He]; [reflexivity|].
    apply elem_of_cons in He as [-> | He]; [reflexivity|].
    by apply elem_of_nil in He.
  - apply (step2_first_extension_wins Sample.other_order Sample.nothing_beyond
             Sample.no_hits Sample.no_subfolders Sample.two_ext_catalog
             "coat" [] ".webp" [".png"; ".jpeg"; ".jpg"]); try reflexivity.
    intros e He. by apply elem_of_nil in He.
Defined.

Lemma outfit_parameter_sources_witness :
  outfit_param (Sample.request_by_query "dress_01") = Some "dress_01" /\
  api_tryon Sample.source_order Sample.model_name bytes Sample.image_open
    Sample.to_rgb Sample.image_save (Sample.model_returns None)
    Sample.nothing_beyond Sample.no_hits Sample.no_subfolders Sample.unreadable
    Sample.request_without_outfit (Sample.empty_store Sample.dress_catalog) =
  (Json 400 [("error", "Missing 'outfit' parameter.")],
   Sample.empty_store Sample.dress_catalog).
Proof.
  pose proof (outfit_parameter_sources Sample.source_order Sample.model_name bytes
                Sample.image_open Sample.to_rgb Sample.image_save
                (Sample.model_returns None) Sample.nothing_beyond Sample.no_hits
                Sample.no_subfolders Sample.unreadable) as (_ & _ & H3 & _ & H5 & _).
  split.
  - apply H3; reflexivity.
  - apply (H5 _ _ Sample.photo); reflexivity.
Defined.

Lemma boundary_failures_become_500_witness :
  api_tryon Sample.source_order Sample.model_name bytes Sample.image_open
    Sample.to_rgb Sample.image_save
    (Sample.model_fails "429 RESOURCE_EXHAUSTED. Quota exceeded.")
    Sample.nothing_beyond Sample.no_hits Sample.no_subfolders Sample.unreadable
    (Sample.request_for "dress_01") (Sample.empty_store Sample.dress_catalog) =
  (Json 500 [("error", "Try-on error: Gemini quota exhausted for this model. Use a cheaper model or add billing in Google AI Studio.")],
   Sample.store_with_photo).
Proof.
  pose proof (boundary_failures_become_500 Sample.source_order Sample.model_name bytes
                Sample.image_open Sample.to_rgb Sample.image_save
                (Sample.model_fails "429 RESOURCE_EXHAUSTED. Quota exceeded.")
                Sample.nothing_beyond Sample.no_hits Sample.no_subfolders
                Sample.unreadable)
    as (H & _).
  apply (H _ _ (UpstreamError "429 RESOURCE_EXHAUSTED. Quota exceeded.")).
  reflexivity.
Defined.

Lemma materialize_writes_jpeg_witness :
  materialize bytes Sample.image_open Sample.to_rgb Sample.image_save
    (Sample.b 7) Sample.store_with_result =
    (inr (OUTPUT_DIR // "tryon_result_gemini.jpg"),
     FS Sample.dress_catalog ∅
        (<["tryon_result_gemini.jpg" := Sample.b 7]> (output Sample.store_with_result))) /\
  materialize bytes Sample.image_open Sample.to_rgb Sample.image_save
    [] Sample.store_with_result =
    (inl (UnidentifiedImageError "cannot identify image file"), Sample.store_with_result).
Proof.
  pose proof (materialize_writes_jpeg Sample.model_name bytes Sample.image_open
                Sample.to_rgb Sample.image_save (Sample.model_returns None)
                Sample.unreadable)
    as (H1 & H2 & _).
  split.
  - specialize (H1 (Sample.b 7) (Sample.b 7) Sample.store_with_result eq_refl).
    reflexivity.
  - apply (H2 [] "cannot identify image file" Sample.store_with_result eq_refl).
Defined.

Lemma request_parts_in_order_witness :
  run_gemini_tryon Sample.model_name bytes Sample.image_open Sample.to_rgb
    Sample.image_save (Sample.model_fails "503 UNAVAILABLE") Sample.unreadable
    (UPLOADS_DIR // "user_photo.png") (IMG_DIR // "dress_01.png") "summer look"
    Sample.store_with_photo =
  (inl (UpstreamError "503 UNAVAILABLE"), Sample.store_with_photo).
Proof.
  pose proof (request_parts_in_order Sample.model_name bytes Sample.image_open
                Sample.to_rgb Sample.image_save (Sample.model_fails "503 UNAVAILABLE")
                Sample.unreadable)
    as (_ & _ & H).
  apply (H _ _ _ _ (Sample.b 9) (Sample.b 2)); reflexivity.
Defined.

Lemma upload_saved_as_user_photo_witness :
  uploads
    (snd (api_tryon Sample.source_order Sample.model_name bytes Sample.image_open
            Sample.to_rgb Sample.image_save (Sample.model_returns (Some Sample.second_only))
            Sample.nothing_beyond Sample.no_hits Sample.no_subfolders Sample.unreadable
            (Sample.request_for "dress_01") (Sample.empty_store Sample.dress_catalog)))
    !! "user_photo.png" = Some (Sample.b 9).
Proof.
  pose proof (upload_saved_as_user_photo Sample.source_order Sample.model_name bytes
                Sample.image_open Sample.to_rgb Sample.image_save
                (Sample.model_returns (Some Sample.second_only))
                Sample.nothing_beyond Sample.no_hits Sample.no_subfolders
                Sample.unreadable) as (_ & _ & H).
  apply (H (Sample.request_for "dress_01") _ Sample.photo); reflexivity.
Defined.

(** * A content without parts *)

(** C3, at a response with two candidates of which only the second carries
    a payload, the first having a content whose [parts] is [None].  The
    payloads of the response in scanning order are the one payload of the
    second candidate; the extractor does not return it, it raises the
    [TypeError] of iterating over [None], and so does every response whose
    first candidate has such a content.  The run ends with that error. *)
Theorem content_without_parts_stops_extraction :
  payloads_in_order (Some Fixture.payload_second) = [Sample.b 7] /\
  extract_image_bytes (Some Fixture.payload_second) =
    inl (TypeError "'NoneType' object is not iterable") /\
  (forall cs,
     extract_image_bytes
       (Some {| candidates := Some ({| content := Some Fixture.empty_content |} :: cs) |}) =
     inl (TypeError "'NoneType' object is not iterable")) /\
  run_gemini_tryon Sample.model_name bytes Sample.image_open Sample.to_rgb
    Sample.image_save (Sample.model_returns (Some Fixture.payload_second))
    Sample.unreadable
    (UPLOADS_DIR // "user_photo.png") (IMG_DIR // "dress_01.png") ""
    Sample.store_with_photo =
  (inl (TypeError "'NoneType' object is not iterable"), Sample.store_with_photo).
Proof. repeat split; reflexivity. Qed.

(** C4, at a response whose one candidate has a content whose [parts] is
    [None].  The response holds no payload anywhere, yet the run does not
    raise the no-image [RuntimeError]: it raises the [TypeError] of iterating
    over [None], whose text does not name the model, and the endpoint
    answers 500 with that text. *)
Theorem content_without_parts_is_not_no_image :
  payloads_in_order (Some Fixture.no_parts) = [] /\
  extract_image_bytes (Some Fixture.no_parts) =
    inl (TypeError "'NoneType' object is not iterable") /\
  run_gemini_tryon Sample.model_name bytes Sample.image_open Sample.to_rgb
    Sample.image_save (Sample.model_returns (Some Fixture.no_parts))
    Sample.unreadable
    (UPLOADS_DIR // "user_photo.png") (IMG_DIR // "dress_01.png") ""
    Sample.store_with_photo =
  (inl (TypeError "'NoneType' object is not iterable"), Sample.store_with_photo) /\
  TypeError "'NoneType' object is not iterable" <>
    RuntimeError (no_image_message Sample.model_name) /\
  Text.str_in Sample.model_name "'NoneType' object is not iterable" = false /\
  api_tryon Sample.source_order Sample.model_name bytes Sample.image_open
    Sample.to_rgb Sample.image_save (Sample.model_returns (Some Fixture.no_parts))
    Sample.nothing_beyond Sample.no_hits Sample.no_subfolders Sample.unreadable
    (Sample.request_for "dress_01") (Sample.empty_store Sample.dress_catalog) =
  (Json 500 [("error", "Try-on error: 'NoneType' object is not iterable")],
   Sample.store_with_photo).
Proof. repeat split; try reflexivity. discriminate. Qed.

(** * Pattern characters in the identifier *)

(** C5, at an identifier with a pattern character.  The catalog holds the
    single file [dress_01.png].  No entry is named [dress_0?], none is named
    [dress_0?] plus an allowed extension, and no name starts with
    [dress_0?]; yet the [?] is read by [glob] as "any character", the file is
    found, and the endpoint goes on to answer 200 instead of 404. *)
Theorem wildcard_identifier_is_resolved :
  let cat := [Sample.png_file "dress_01.png" 2] in
  exists_in Sample.nothing_beyond cat "dress_0?" = inr false /\
  (forall ext, ext ∈ ALLOWED_EXTS ->
     exists_in Sample.nothing_beyond cat ("dress_0?" +:+ ext) = inr false) /\
  (forall p, p ∈ cat ->
     Text.is_prefix (Text.chars "dress_0?") (Text.chars (e_name p)) = false) /\
  find_outfit_path Sample.source_order Sample.nothing_beyond Sample.no_hits
    Sample.no_subfolders cat "dress_0?" = inr (IMG_DIR // "dress_01.png") /\
  status_of
    (fst (api_tryon Sample.source_order Sample.model_name bytes Sample.image_open
            Sample.to_rgb Sample.image_save
            (Sample.model_returns (Some Sample.second_only))
            Sample.nothing_beyond Sample.no_hits Sample.no_subfolders Sample.unreadable
            (Sample.request_for "dress_0?") (Sample.empty_store cat))) = 200.
Proof.
  simpl. split; [reflexivity|]. split; [|split; [|split; reflexivity]].
  - intros ext Hin.
    apply allowed_ext_cases in Hin as [-> | [-> | [-> | ->] ] ]; reflexivity.
  - intros p Hp. apply list_elem_of_singleton in Hp as ->. reflexivity.
Qed.

(** * The catalog generator *)

Section MakeProductsProperties.
Import MakeProducts.

Set Default Proof Using "Type".

Variable image_verifies : bytes -> bool.

Lemma enumerate_from_lookup {A} (k : nat) (l : list A) i :
  enumerate_from k l !! i = (fun a => (k + i, a)) <$> (l !! i).
Proof.
  revert k i. induction l as [|a l IH]; intros k i; [done|].
  destruct i as [|i]; simpl.
  - by rewrite Nat.add_0_r.
  - rewrite IH. destruct (l !! i); simpl; [|done]. do 2 f_equal. lia.
Qed.

Lemma enumerate_from_length {A} (k : nat) (l : list A) :
  length (enumerate_from k l) = length l.
Proof. revert k. induction l as [|a l IH]; intros k; simpl; [done | by rewrite IH]. Qed.

Lemma items_lookup folder i :
  items image_verifies folder !! i =
  make_item i <$> (valid_files image_verifies folder !! i).
Proof.
  unfold items. rewrite list_lookup_fmap, enumerate_from_lookup.
  by destruct (valid_files image_verifies folder !! i).
Qed.

Lemma str_of_nat_inj n m : str_of_nat n = str_of_nat m -> n = m.
Proof.
  unfold str_of_nat. intros H. apply Unsigned.to_uint_inj.
  apply (f_equal NilEmpty.uint_of_string) in H.
  rewrite !NilEmpty.usu in H. by injection H.
Qed.

(** X16. [products.json] holds one item per valid file, in the order of the
    files; the item at position [i] has the identifier ["item"] followed by
    [i + 1] and points to its file under [assets/img_out/] as both [src] and
    [thumb]; no two items share an identifier. *)
Theorem product_items_numbered folder :
  length (items image_verifies folder) = length (valid_files image_verifies folder) /\
  (forall i it,
     items image_verifies folder !! i = Some it ->
     id it = "item" +:+ str_of_nat (i + 1) /\
     exists file,
       valid_files image_verifies folder !! i = Some file /\
       src it = "assets/img_out/" +:+ file /\ thumb it = src it /\
       name it = "Style " +:+ fst (splitext file)) /\
  NoDup (map id (items image_verifies folder)).
Proof.
  split; [|split].
  - unfold items. by rewrite length_map, enumerate_from_length.
  - intros i it. rewrite items_lookup.
    destruct (valid_files image_verifies folder !! i) as [file|]; [|done].
    intros [= <-]. split; [done|]. by exists file.
  - apply NoDup_alt. intros i j ident Hi Hj.
    rewrite list_lookup_fmap, items_lookup in Hi, Hj.
    destruct (valid_files image_verifies folder !! i); [|done].
    destruct (valid_files image_verifies folder !! j); [|done].
    simpl in Hi, Hj. injection Hi as <-. injection Hj as Hj.
    apply String.app_inj in Hj. apply str_of_nat_inj in Hj. lia.
Qed.

Lemma StronglySorted_filter {A} (R : relation A) (f : A -> bool) l :
  StronglySorted R l -> StronglySorted R (List.filter f l).
Proof.
  induction 1 as [|a l Hs IH Hall]; simpl; [constructor|].
  destruct (f a); [|done]. constructor; [done|].
  apply Forall_forall. intros b Hb.
  apply list_elem_of_In, List.filter_In in Hb as [Hb _].
  rewrite Forall_forall in Hall. apply Hall. by apply list_elem_of_In.
Qed.

Lemma opens_as_image_entry folder file :
  opens_as_image image_verifies folder file = true ->
  exists content,
    lookup_entry folder file = Some (Entry file (File content)) /\
    Entry file (File content) ∈ folder /\
    image_verifies content = true.
Proof.
  unfold opens_as_image.
  destruct (lookup_entry folder file) as [[n [content|]]|] eqn:E; [|done..].
  intros Hv. exists content.
  pose proof (lookup_entry_name _ _ _ E) as Hn. simpl in Hn. subst n.
  split; [done|]. split; [|done].
  unfold lookup_entry in E. apply List.find_some in E as [Hin _].
  by apply list_elem_of_In.
Qed.

Lemma elem_of_valid_files folder file :
  file ∈ valid_files image_verifies folder <->
  file ∈ map e_name folder /\ has_valid_ext file = true /\
  opens_as_image image_verifies folder file = true.
Proof.
  unfold valid_files. rewrite list_elem_of_In, List.filter_In, <- list_elem_of_In.
  rewrite merge_sort_Permutation, andb_true_iff. tauto.
Qed.

(** X17. Every file behind an item is an entry of the folder that is a
    regular file, passes the image check and has a valid extension; the
    files are taken in ascending order of their names. *)
Theorem product_files_checked folder :
  StronglySorted String.le (valid_files image_verifies folder) /\
  (forall file,
     file ∈ valid_files image_verifies folder ->
     has_valid_ext file = true /\
     exists content,
       Entry file (File content) ∈ folder /\ image_verifies content = true).
Proof.
  split.
  - unfold valid_files. apply StronglySorted_filter.
    apply (StronglySorted_merge_sort String.le).
  - intros file Hin. apply elem_of_valid_files in Hin as (_ & Hext & Hopen).
    split; [done|].
    apply opens_as_image_entry in Hopen as (content & _ & Hin & Hv). eauto.
Qed.

(** *** The generator and the server agree on extensions *)

Lemma rfind_as_rfind_dot i l : rfind "." i l = PurePath.rfind_dot i l.
Proof. revert i. induction l as [|c l IH]; intros i; simpl; [done | by rewrite IH]. Qed.

Lemma rfind_absent c i l : Forall (fun x => x <> c) l -> rfind c i l = None.
Proof.
  revert i. induction l as [|x l IH]; intros i H; simpl; [done|].
  apply Forall_cons in H as [Hx Hl]. rewrite (IH _ Hl).
  destruct (Text.ascii_eqb x c) eqn:E; [|done]. by apply ascii_eqb_true in E.
Qed.

Lemma rfind_bounds c i l j : rfind c i l = Some j -> i <= j < i + length l.
Proof.
  revert i. induction l as [|x l IH]; intros i; simpl; [done|].
  destruct (rfind c (S i) l) as [k|] eqn:E.
  - intros [= <-]. apply IH in E. lia.
  - destruct (Text.ascii_eqb x c); [|done]. intros [= <-]. lia.
Qed.

Lemma chars_lower s : Text.chars (Text.lower s) = map Text.lower_ascii (Text.chars s).
Proof. unfold Text.lower. apply chars_text. Qed.

Lemma valid_ext_cases ext :
  Text.mem ext valid_exts = true ->
  ext = ".png" \/ ext = ".jpg" \/ ext = ".jpeg" \/ ext = ".webp".
Proof.
  unfold Text.mem, valid_exts. simpl. rewrite !orb_true_iff, !string_eqb_true.
  intros [H | [H | [H | [H | H] ] ] ]; auto. done.
Qed.

Lemma valid_ext_allowed ext : Text.mem ext valid_exts = true -> in_allowed_exts ext = true.
Proof.
  intros H. apply valid_ext_cases in H as [-> | [-> | [-> | ->] ] ]; reflexivity.
Qed.

Lemma valid_ext_length ext : Text.mem ext valid_exts = true -> 4 <= String.length ext.
Proof.
  intros H. apply valid_ext_cases in H as [-> | [-> | [-> | ->] ] ]; simpl; lia.
Qed.

Lemma length_chars s : length (Text.chars s) = String.length s.
Proof. induction s as [|c s IH]; simpl; [done | by rewrite IH]. Qed.

Lemma keeps_long c : 2 <= length c -> PurePath.keeps c = true.
Proof. destruct c as [|a [|b c] ]; simpl; [lia | lia | done]. Qed.

Lemma splitext_no_slash file :
  no_slash (Text.chars file) ->
  snd (splitext file) =
  match rfind "." 0 (Text.chars file) with
  | Some d =>
      if existsb (fun c => negb (Text.ascii_eqb c ".")) (take d (Text.chars file))
      then Text.text (drop d (Text.chars file)) else ""
  | None => ""
  end.
Proof.
  intros Hns. unfold splitext. cbv zeta.
  rewrite (rfind_absent "/" 0 _ Hns).
  destruct (rfind "." 0 (Text.chars file)) as [d|]; [|done].
  rewrite Nat.sub_0_r, drop_0. change (0 <=? d)%nat with true.
  rewrite andb_true_l. by destruct (existsb _ _).
Qed.

(** A name without a separator that the generator accepts by its extension
    is accepted by [allowed_file]. *)
Lemma has_valid_ext_allowed file :
  no_slash (Text.chars file) -> has_valid_ext file = true -> allowed_file file = true.
Proof.
  intros Hns Hv. unfold has_valid_ext in Hv. rewrite (splitext_no_slash _ Hns) in Hv.
  destruct (rfind "." 0 (Text.chars file)) as [d|] eqn:Hd; [|done].
  destruct (existsb _ (take d (Text.chars file))) eqn:Hex; [|done].
  assert (0 < d) as Hd0.
  { destruct d; [by rewrite take_0 in Hex | lia]. }
  pose proof (rfind_bounds _ _ _ _ Hd) as Hb.
  pose proof (valid_ext_length _ Hv) as Hlen.
  rewrite <- length_chars, chars_lower, length_map, chars_text, length_drop in Hlen.
  assert (PurePath.name file = file) as Hname.
  { rewrite <- (text_chars file) at 1.
    rewrite name_of_component; [apply text_chars | apply keeps_long; lia | done]. }
  unfold allowed_file, PurePath.suffix. rewrite Hname, <- rfind_as_rfind_dot, Hd.
  assert ((0 <? d)%nat && (d <? length (Text.chars file) - 1)%nat = true) as ->.
  { apply andb_true_iff. split; apply Nat.ltb_lt; lia. }
  by apply valid_ext_allowed.
Qed.

(** X19. The two programs agree on what an outfit is: in a folder whose
    entry names contain no separator, every file the generator puts into
    [products.json] is among the names [list_outfits] serves. *)
Theorem products_are_listed_outfits folder file :
  (forall e, e ∈ folder -> no_slash (Text.chars (e_name e))) ->
  file ∈ valid_files image_verifies folder ->
  file ∈ list_outfits (Some folder).
Proof.
  intros Hwf Hin. apply elem_of_valid_files in Hin as (_ & Hext & Hopen).
  apply opens_as_image_entry in Hopen as (content & Hl & Hin & _).
  pose proof (lookup_entry_Some _ _ _ Hl) as (_ & _ & Hv).
  simpl. rewrite merge_sort_Permutation. apply elem_of_outfit_names.
  exists (Entry file (File content)). split; [done|]. split; [done|].
  split; [unfold is_file; simpl; by rewrite Hv|].
  apply has_valid_ext_allowed; [|done]. apply (Hwf _ Hin).
Qed.

End MakeProductsProperties.

(** * The directory tree printer *)

Section DiagnoseProperties.
Import Diagnose.

Set Default Proof Using "Type".

Lemma walk_S levels curdepth children :
  walk (S levels) curdepth children =
  flat_map (lines_of_child levels curdepth) (merge_sort by_name children).
Proof.
  simpl. induction (merge_sort by_name children) as [|child cs IH]; [done|].
  simpl. by rewrite IH.
Qed.

Lemma length_flat_map_sum {A B} (f : A -> list B) (l : list A) :
  length (flat_map f l) = sum_list_with (fun a => length (f a)) l.
Proof. induction l as [|a l IH]; simpl; [done|]. by rewrite length_app, IH. Qed.

Lemma sum_list_with_pointwise {A} (f g : A -> nat) (l : list A) :
  (forall a, f a = g a) -> sum_list_with f l = sum_list_with g l.
Proof. intros H. induction l as [|a l IH]; simpl; [done|]. by rewrite H, IH. Qed.

Lemma walk_length levels curdepth children :
  length (walk levels curdepth children) = count_levels levels children.
Proof.
  revert curdepth children.
  induction levels as [|levels IH]; intros curdepth children; [done|].
  rewrite walk_S, length_flat_map_sum.
  rewrite (merge_sort_Permutation by_name children). simpl.
  apply sum_list_with_pointwise. intros [n|n grand]; simpl; [done|].
  by rewrite IH.
Qed.

(** X20. [print_tree(root, depth)] prints the header, then one line for
    every entry on the first [depth + 1] levels below the root and none for
    a deeper entry, then an empty line. *)
Theorem print_tree_lines root children depth :
  length (print_tree root children depth) = 2 + count_levels (S depth) children /\
  head (print_tree root children depth) =
    Some ("=== Directory tree under " +:+ root +:+ " (depth=" +:+
          MakeProducts.str_of_nat depth +:+ ") ===") /\
  last (print_tree root children depth) = Some "".
Proof.
  split; [|split].
  - unfold print_tree. rewrite List.length_cons, length_app, walk_length.
    cbn [length]. lia.
  - done.
  - unfold print_tree. rewrite last_cons, last_snoc. done.
Qed.

End DiagnoseProperties.

(** * The further properties at sample inputs *)

Lemma resolved_path_exists_witness :
  p_dir (IMG_DIR // "shirt_blue.PNG") = IMG_DIR /\
  (exists_in Sample.nothing_beyond Fixture.shirts (p_name (IMG_DIR // "shirt_blue.PNG")) =
     inr true \/
   exists hits h, Sample.no_hits ("shirt" +:+ "*") = inr hits /\ h ∈ hits /\
                  h_is_file h = true /\ p_name (IMG_DIR // "shirt_blue.PNG") = h_name h) /\
  (no_slash (Text.chars "shirt") ->
   exists_in Sample.nothing_beyond Fixture.shirts (p_name (IMG_DIR // "shirt_blue.PNG")) =
     inr true /\
   (valid_name (p_name (IMG_DIR // "shirt_blue.PNG")) = true ->
    exists e, e ∈ Fixture.shirts /\ e_name e = p_name (IMG_DIR // "shirt_blue.PNG"))).
Proof.
  apply (resolved_path_exists Sample.source_order Sample.nothing_beyond Sample.no_hits
           Sample.no_subfolders Fixture.shirts "shirt").
  reflexivity.
Defined.

Lemma not_found_iff_witness :
  find_outfit_path Sample.source_order Sample.nothing_beyond Sample.no_hits
    Sample.no_subfolders Sample.dress_catalog "/nonexistent" =
    inl (NotImplementedError "Non-relative patterns are unsupported") /\
  find_outfit_path Sample.source_order Sample.nothing_beyond Sample.no_hits
    Sample.no_subfolders Sample.dress_catalog "**" =
    inl (ValueError "Invalid pattern: '**' can only be an entire path component").
Proof.
  assert (forall ext, ext ∈ Sample.source_order ->
            ext = ".jpg" \/ ext = ".jpeg" \/ ext = ".png" \/ ext = ".webp") as Hsrc.
  { unfold Sample.source_order. intros ext. rewrite !elem_of_cons, elem_of_nil.
    intros [H | [H | [H | [H | [] ] ] ] ];
      [by left | by right; left | by right; right; left | by right; right; right]. }
  split.
  - pose proof (not_found_iff Sample.source_order Sample.nothing_beyond Sample.no_hits
                  Sample.no_subfolders Sample.dress_catalog "/nonexistent")
      as (_ & H & _).
    apply H; [reflexivity | reflexivity |].
    intros ext Hin. apply Hsrc in Hin as [-> | [-> | [-> | ->] ] ]; reflexivity.
  - pose proof (not_found_iff Sample.source_order Sample.nothing_beyond Sample.no_hits
                  Sample.no_subfolders Sample.dress_catalog "**")
      as (_ & _ & H & _).
    apply H; [reflexivity|].
    intros ext Hin. apply Hsrc in Hin as [-> | [-> | [-> | ->] ] ]; reflexivity.
Defined.

Lemma plain_identifier_prefix_search_witness :
  find_outfit_path Sample.source_order Sample.nothing_beyond Sample.no_hits
    Sample.no_subfolders Fixture.shirts "shirt" =
  inr (IMG_DIR // "shirt_blue.PNG").
Proof.
  apply (plain_identifier_prefix_search Sample.source_order Sample.nothing_beyond
           Sample.no_hits Sample.no_subfolders Fixture.shirts "shirt"
           [Entry "shirt_notes.txt" (File (Sample.b 1))]
           (Entry "shirt_blue.PNG" (File (Sample.b 2)))
           [Entry "shirt_red.png" (File (Sample.b 3)); Entry "coat.png" Directory]);
    try reflexivity.
  - intros ext Hin. unfold Sample.source_order in Hin.
    rewrite !elem_of_cons, elem_of_nil in Hin.
    destruct Hin as [-> | [-> | [-> | [-> | [] ] ] ] ]; reflexivity.
  - intros q Hq. apply list_elem_of_singleton in Hq as ->. reflexivity.
Defined.

Lemma stem_with_extension_resolves_witness :
  exists p,
    find_outfit_path Sample.other_order Sample.nothing_beyond Sample.no_hits
      Sample.no_subfolders Sample.two_ext_catalog "coat" = inr p /\
    (p = IMG_DIR // "coat" \/
     exists ext', ext' ∈ Sample.other_order /\ p = IMG_DIR // ("coat" +:+ ext') /\
                  exists_in Sample.nothing_beyond Sample.two_ext_catalog
                    ("coat" +:+ ext') = inr true).
Proof.
  apply (stem_with_extension_resolves Sample.other_order Sample.nothing_beyond
           Sample.no_hits Sample.no_subfolders Sample.two_ext_catalog "coat" ".png").
  - eexists. reflexivity.
  - intros ext' Hin. unfold Sample.other_order in Hin.
    rewrite !elem_of_cons, elem_of_nil in Hin.
    destruct Hin as [-> | [-> | [-> | [-> | [] ] ] ] ]; eexists; reflexivity.
  - unfold Sample.other_order. rewrite !elem_of_cons. by right; left.
  - reflexivity.
Defined.

Lemma listed_outfit_resolves_witness :
  find_outfit_path Sample.source_order Sample.nothing_beyond Sample.no_hits
    Sample.no_subfolders Fixture.shirts "shirt_blue.PNG" =
  inr (IMG_DIR // "shirt_blue.PNG").
Proof.
  apply (listed_outfit_resolves Sample.source_order Sample.nothing_beyond
           Sample.no_hits Sample.no_subfolders Fixture.shirts "shirt_blue.PNG").
  vm_compute. by left.
Defined.

Lemma extracted_payload_is_inline_data_witness :
  Sample.b 7 <> [] /\
  exists r cs cand c ps part inline,
    Some Sample.second_only = Some r /\ candidates r = Some cs /\ cand ∈ cs /\
    content cand = Some c /\ parts c = Some ps /\ part ∈ ps /\
    inline_data part = Some inline /\ data inline = Some (Sample.b 7).
Proof.
  apply (extracted_payload_is_inline_data (Some Sample.second_only) (Sample.b 7)).
  reflexivity.
Defined.

Lemma undecodable_image_stops_run_witness :
  run_gemini_tryon Sample.model_name bytes Sample.image_open Sample.to_rgb
    Sample.image_save (Sample.model_returns (Some Sample.second_only))
    Sample.unreadable
    (UPLOADS_DIR // "user_photo.jpg") (IMG_DIR // "shirt_red.png") ""
    Fixture.store_with_broken_photo =
  (inl (UnidentifiedImageError "cannot identify image file"),
   Fixture.store_with_broken_photo).
Proof.
  apply (undecodable_image_stops_run Sample.model_name bytes Sample.image_open
           Sample.to_rgb Sample.image_save
           (Sample.model_returns (Some Sample.second_only)) Sample.unreadable
           (UPLOADS_DIR // "user_photo.jpg") (IMG_DIR // "shirt_red.png") ""
           Fixture.store_with_broken_photo [] "cannot identify image file");
    reflexivity.
Defined.

Lemma no_image_answered_as_quota_witness :
  api_tryon Sample.source_order Sample.model_name bytes Sample.image_open
    Sample.to_rgb Sample.image_save (Sample.model_returns (Some Sample.no_candidates))
    Sample.nothing_beyond Sample.no_hits Sample.no_subfolders Sample.unreadable
    (Sample.request_for "dress_01") (Sample.empty_store Sample.dress_catalog) =
  (Json 500 [("error", "Try-on error: " +:+ quota_message)],
   with_upload (Sample.empty_store Sample.dress_catalog) Sample.photo).
Proof.
  pose proof (no_image_answered_as_quota Sample.source_order Sample.model_name bytes
                Sample.image_open Sample.to_rgb Sample.image_save
                (Sample.model_returns (Some Sample.no_candidates))
                Sample.nothing_beyond Sample.no_hits Sample.no_subfolders
                Sample.unreadable) as [_ H].
  apply (H _ _ Sample.photo (IMG_DIR // "dress_01.png") (Sample.b 9) (Sample.b 2)
           (Some Sample.no_candidates)); try reflexivity.
  constructor.
Defined.

Lemma tryon_success_witness :
  api_tryon Sample.source_order Sample.model_name bytes Sample.image_open
    Sample.to_rgb Sample.image_save (Sample.model_returns (Some Sample.second_only))
    Sample.nothing_beyond Sample.no_hits Sample.no_subfolders Sample.unreadable
    (Sample.request_for "dress_01") (Sample.empty_store Sample.dress_catalog) =
  (SendFile (OUTPUT_DIR // "tryon_result_gemini.jpg") "image/jpeg" (Some (Sample.b 7)),
   FS Sample.dress_catalog
      (<["user_photo.png" := Sample.b 9]> ∅)
      (<["tryon_result_gemini.jpg" := Sample.b 7]> ∅)).
Proof.
  apply (tryon_success Sample.source_order Sample.model_name bytes Sample.image_open
           Sample.to_rgb Sample.image_save
           (Sample.model_returns (Some Sample.second_only))
           Sample.nothing_beyond Sample.no_hits Sample.no_subfolders Sample.unreadable
           (Sample.request_for "dress_01") (Sample.empty_store Sample.dress_catalog)
           Sample.photo (IMG_DIR // "dress_01.png") (Sample.b 9) (Sample.b 2)
           (Some Sample.second_only) (Sample.b 7) (Sample.b 7)); reflexivity.
Defined.

Lemma not_found_response_iff_witness :
  api_tryon Sample.source_order Sample.model_name bytes Sample.image_open
    Sample.to_rgb Sample.image_save (Sample.model_returns (Some Sample.second_only))
    Sample.nothing_beyond Sample.no_hits Sample.no_subfolders Sample.unreadable
    (Sample.request_for "skirt") (Sample.empty_store Fixture.shirts) =
  (Json 404 [("error", "Outfit not found: skirt")],
   with_upload (Sample.empty_store Fixture.shirts) Sample.photo).
Proof.
  pose proof (not_found_response_iff Sample.source_order Sample.model_name bytes
                Sample.image_open Sample.to_rgb Sample.image_save
                (Sample.model_returns (Some Sample.second_only))
                Sample.nothing_beyond Sample.no_hits Sample.no_subfolders
                Sample.unreadable
                (Sample.request_for "skirt") (Sample.empty_store Fixture.shirts))
    as (_ & _ & H).
  apply (H Sample.photo "skirt"); reflexivity.
Defined.

Lemma directory_entry_gives_500_witness :
  status_of
    (fst (api_tryon Sample.source_order Sample.model_name bytes Sample.image_open
            Sample.to_rgb Sample.image_save
            (Sample.model_returns (Some Sample.second_only))
            Sample.nothing_beyond Sample.no_hits Sample.no_subfolders Sample.unreadable
            (Sample.request_for "coat") (Sample.empty_store Fixture.shirts))) = 500 /\
  output
    (snd (api_tryon Sample.source_order Sample.model_name bytes Sample.image_open
            Sample.to_rgb Sample.image_save
            (Sample.model_returns (Some Sample.second_only))
            Sample.nothing_beyond Sample.no_hits Sample.no_subfolders Sample.unreadable
            (Sample.request_for "coat") (Sample.empty_store Fixture.shirts))) = ∅.
Proof.
  apply (directory_entry_gives_500 Sample.source_order Sample.model_name bytes
           Sample.image_open Sample.to_rgb Sample.image_save
           (Sample.model_returns (Some Sample.second_only))
           Sample.nothing_beyond Sample.no_hits Sample.no_subfolders Sample.unreadable
           (Sample.request_for "coat") (Sample.empty_store Fixture.shirts)
           Sample.photo (IMG_DIR // "coat.png") "coat.png"); reflexivity.
Defined.

Lemma extraction_on_iterable_response_witness :
  extract_image_bytes (Some Sample.second_only) = inr (Some (Sample.b 7)).
Proof.
  pose proof (extraction_on_iterable_response Sample.model_name bytes
                Sample.image_open Sample.to_rgb Sample.image_save
                (Sample.model_returns None) Sample.unreadable) as (_ & H & _).
  apply (H {| content := Some {| parts := Some [Sample.note_part "no image"] |} |}
           {| content := Some {| parts := Some [Sample.note_part "here";
                                                Sample.blob_part (Sample.b 7);
                                                Sample.blob_part (Sample.b 8)] |} |}
           (Sample.b 7)); try reflexivity.
  repeat constructor; by eexists.
Defined.

Lemma products_are_listed_outfits_witness :
  "shirt_blue.PNG" ∈ list_outfits (Some Fixture.shirts).
Proof.
  apply (products_are_listed_outfits Fixture.verifies Fixture.shirts "shirt_blue.PNG").
  - intros e He. unfold Fixture.shirts in He.
    rewrite !elem_of_cons, elem_of_nil in He.
    destruct He as [-> | [-> | [-> | [-> | [] ] ] ] ];
      unfold no_slash; simpl; repeat constructor; discriminate.
  - vm_compute. by left.
Defined.
